(** * shazam_vinylstreamer: the orchestration loop and its collaborators

    A shallow embedding of [shazam_vinylstreamer.py].  The external
    collaborators (the Icecast stats endpoint, ffmpeg, the recognition
    provider, the cover-art download, the filesystem) answer through
    explicit environment values; every outbound action is recorded as an
    event, in program order.  Every statement of the program that can raise
    outside a handler is modelled with its raise: the comparison of the
    listener count, the encoding of the metadata query, the removal of the
    cover temp file in the handler of the download, the creation and the
    removal of the temporary wav file of a pass, and the construction of the
    Shazam client.  Logging is not modelled: the logging module swallows its
    own errors and has no effect on control flow. *)

From Stdlib Require Import String Ascii List ZArith Bool Lia.
Import ListNotations.

Local Open Scope string_scope.
Local Open Scope Z_scope.
Local Open Scope list_scope.

Set Warnings "-register-all".

(* ===================================================================== *)
(** ** Python values *)
(* ===================================================================== *)

(** The values [json.loads] and the recognition provider hand to the
    program.  Numbers are integers (the listener counts Icecast reports);
    floating-point numbers are outside the model.  A dict is the list of its
    items in insertion order; its keys are strings and pairwise distinct,
    lookup takes the first item with the key.  A str is the sequence of the
    bytes of its UTF-8 encoding; a lone surrogate, which a JSON escape can
    put into a str and UTF-8 cannot encode, is the three bytes its code point
    would take (0xED, a byte in 0xA0..0xBF, a continuation byte), a sequence
    no UTF-8 text contains. *)
Inductive value : Type :=
| VNone
| VBool (b : bool)
| VInt (n : Z)
| VStr (s : string)
| VList (items : list value)
| VDict (items : list (string * value)).

(** The exception classes the program can meet; all of them derive from
    [Exception]. *)
Inductive exn : Type :=
| AttributeError
| TypeError
| KeyError
| JSONDecodeError
| URLError
| TimeoutError
| OSError
| TimeoutExpired
| UnicodeEncodeError.

(** An evaluation either yields a value or raises. *)
Inductive result (A : Type) : Type :=
| Ok (a : A)
| Raise (e : exn).
Arguments Ok {A} a.
Arguments Raise {A} e.

Definition rbind {A B : Type} (r : result A) (k : A -> result B) : result B :=
  match r with
  | Ok a => k a
  | Raise e => Raise e
  end.

Declare Scope exc_scope.
Delimit Scope exc_scope with exc.
Notation "x <- r ;; k" := (rbind r (fun x => k))
  (at level 61, r at next level, right associativity) : exc_scope.

(** [bool(v)]: Python truthiness. *)
Definition truthy (v : value) : bool :=
  match v with
  | VNone => false
  | VBool b => b
  | VInt n => negb (n =? 0)
  | VStr s => negb (s =? "")%string
  | VList items => match items with [] => false | _ :: _ => true end
  | VDict items => match items with [] => false | _ :: _ => true end
  end.

Fixpoint lookup (k : string) (items : list (string * value)) : option value :=
  match items with
  | [] => None
  | (k', v) :: rest => if (k' =? k)%string then Some v else lookup k rest
  end.

(** [v.get(k, default)]: only a dict has the method. *)
Definition method_get (v : value) (k : string) (default : value) : result value :=
  match v with
  | VDict items =>
      match lookup k items with
      | Some x => Ok x
      | None => Ok default
      end
  | _ => Raise AttributeError
  end.

(** [v[k]] with a string key. *)
Definition subscript (v : value) (k : string) : result value :=
  match v with
  | VDict items =>
      match lookup k items with
      | Some x => Ok x
      | None => Raise KeyError
      end
  | _ => Raise TypeError
  end.

Fixpoint chars (s : string) : list value :=
  match s with
  | EmptyString => []
  | String c rest => VStr (String c EmptyString) :: chars rest
  end.

(** What a [for] loop iterates over: the items of a list, the keys of a
    dict, the characters of a str; anything else is not iterable. *)
Definition py_iter (v : value) : result (list value) :=
  match v with
  | VList items => Ok items
  | VDict items => Ok (map (fun kv => VStr (fst kv)) items)
  | VStr s => Ok (chars s)
  | _ => Raise TypeError
  end.

Definition lower_ascii (c : ascii) : ascii :=
  let n := N_of_ascii c in
  if ((65 <=? n) && (n <=? 90))%N then ascii_of_N (n + 32) else c.

(** [s.lower()] on the ASCII letters.  No character outside ASCII lowers to
    one of the letters of "album", so the comparison the program makes with
    that word is decided exactly. *)
Fixpoint lower (s : string) : string :=
  match s with
  | EmptyString => EmptyString
  | String c rest => String (lower_ascii c) (lower rest)
  end.

(** [v.lower()]: a str method. *)
Definition method_lower (v : value) : result string :=
  match v with
  | VStr s => Ok (lower s)
  | _ => Raise AttributeError
  end.

(** Whether a str holds a lone surrogate: [s.encode("utf-8")] raises
    [UnicodeEncodeError] exactly then. *)
Fixpoint has_surrogate (s : string) : bool :=
  match s with
  | EmptyString => false
  | String c rest =>
      match rest with
      | String d _ =>
          ((N_of_ascii c =? 237) && (160 <=? N_of_ascii d) && (N_of_ascii d <=? 191))%N
      | EmptyString => false
      end
      || has_surrogate rest
  end.

(** The integer a value stands for in arithmetic and ordering ([bool] is a
    subclass of [int]); a [TypeError] for everything else. *)
Definition to_int (v : value) : result Z :=
  match v with
  | VInt n => Ok n
  | VBool b => Ok (Z.b2z b)
  | _ => Raise TypeError
  end.

(** [a == b]. *)
Fixpoint py_eq (a b : value) {struct a} : bool :=
  match a, b with
  | VNone, VNone => true
  | VBool x, VBool y => Bool.eqb x y
  | VBool x, VInt y => Z.b2z x =? y
  | VInt x, VBool y => x =? Z.b2z y
  | VInt x, VInt y => x =? y
  | VStr x, VStr y => (x =? y)%string
  | VList xs, VList ys =>
      (fix items_eq (xs ys : list value) {struct xs} : bool :=
         match xs, ys with
         | [], [] => true
         | x :: xs', y :: ys' => py_eq x y && items_eq xs' ys'
         | _, _ => false
         end) xs ys
  | VDict d1, VDict d2 =>
      (Nat.eqb (length d1) (length d2))
      && (fix all_in (d : list (string * value)) {struct d} : bool :=
            match d with
            | [] => true
            | (k, v) :: d' =>
                match lookup k d2 with
                | Some w => py_eq v w
                | None => false
                end && all_in d'
            end) d1
  | _, _ => false
  end.

(* ===================================================================== *)
(** ** CONFIG *)
(* ===================================================================== *)

Definition ICECAST_MOUNT : string := "/stream.mp3".
Definition COVER_PUBLIC_URL : string := "http://localhost:8000/cover.jpg".
Definition CAPTURE_SECONDS : Z := 8.
Definition POLL_INTERVAL : Z := 30.

(* ===================================================================== *)
(** ** Icecast listener check *)
(* ===================================================================== *)

(** [sum(s.get("listeners", 0) for s in source)]: the generator is consumed
    one element at a time, each added to the running total, which starts
    at the int 0. *)
Fixpoint sum_listeners (acc : Z) (source : list value) : result Z :=
  match source with
  | [] => Ok acc
  | s :: rest =>
      (v <- method_get s "listeners" (VInt 0) ;;
       n <- to_int v ;;
       sum_listeners (acc + n) rest)%exc
  end.

(** The [try] block of [get_listener_count].  [reply] is what
    [json.loads(resp.read().decode())] evaluates to on the answer of the
    stats endpoint: the parsed document, or the exception raised on the way
    (endpoint unreachable, timeout, malformed JSON). *)
Definition get_listener_count_try (reply : result value) : result value :=
  (data <- reply ;;
   icestats <- method_get data "icestats" (VDict []) ;;
   source <- method_get icestats "source" (VDict []) ;;
   match source with
   | VList items =>
       total <- sum_listeners 0 items ;;
       Ok (VInt total)
   | _ => method_get source "listeners" (VInt 0)
   end)%exc.

(** [get_listener_count]: [except Exception] turns every exception into 0. *)
Definition get_listener_count (reply : result value) : value :=
  match get_listener_count_try reply with
  | Ok v => v
  | Raise _ => VInt 0
  end.

(* ===================================================================== *)
(** ** Shazam recognition *)
(* ===================================================================== *)

(** The inner loop over the metadata entries of one section; [album] is the
    variable's value on entry, the result its value when the loop is left
    (by exhaustion or by [break]). *)
Fixpoint scan_metadata (metas : list value) (album : value) : result value :=
  match metas with
  | [] => Ok album
  | meta :: rest =>
      (t <- method_get meta "title" (VStr "") ;;
       l <- method_lower t ;;
       if (l =? "album")%string
       then method_get meta "text" (VStr "Unknown")
       else scan_metadata rest album)%exc
  end.

(** The outer loop over the sections. *)
Fixpoint scan_sections (sections : list value) (album : value) : result value :=
  match sections with
  | [] => Ok album
  | section :: rest =>
      (m <- method_get section "metadata" (VList []) ;;
       metas <- py_iter m ;;
       album' <- scan_metadata metas album ;;
       scan_sections rest album')%exc
  end.

Definition make_track (title artist album cover : value) : value :=
  VDict [("title", title); ("artist", artist); ("album", album); ("cover", cover)].

(** The [try] block of [recognize].  [reply] is the outcome of
    [await shazam.recognize(audio_path)]. *)
Definition recognize_try (reply : result value) : result value :=
  (res <- reply ;;
   track <- method_get res "track" (VDict []) ;;
   if negb (truthy track) then Ok (VDict []) else
   secs <- method_get track "sections" (VList []) ;;
   sections <- py_iter secs ;;
   album <- scan_sections sections (VStr "Unknown") ;;
   images <- method_get track "images" (VDict []) ;;
   hq <- method_get images "coverarthq" VNone ;;
   cover <- (if truthy hq then Ok hq else
             std <- method_get images "coverart" VNone ;;
             Ok (if truthy std then std else VStr "")) ;;
   title <- method_get track "title" (VStr "Unknown") ;;
   artist <- method_get track "subtitle" (VStr "Unknown") ;;
   Ok (make_track title artist album cover))%exc.

(** [recognize]: every exception becomes the empty dict. *)
Definition recognize (reply : result value) : value :=
  match recognize_try reply with
  | Ok v => v
  | Raise _ => VDict []
  end.

(* ===================================================================== *)
(** ** Effects: the filesystem and the outbound actions *)
(* ===================================================================== *)

Definition bytes : Type := list Byte.byte.

(** The two paths the program writes: [COVER_LOCAL_PATH] and
    [COVER_LOCAL_PATH + ".tmp"]; [None] is an absent file. *)
Record filesys : Type := {
  cover_file : option bytes;
  tmp_file : option bytes
}.

(** Outbound actions, recorded when they are attempted. *)
Inductive event : Type :=
| EvStatsGet                                   (* GET ICECAST_STATS *)
| EvMetadata (params : list (string * string)) (* GET /admin/metadata?params *)
| EvSleep (seconds : Z)                        (* asyncio.sleep *)
| EvCapture                                    (* one ffmpeg run *)
| EvRecognize                                  (* shazam.recognize *)
| EvCoverGet (url : value)                     (* GET of the provider's cover *)
| EvTmpOpen
| EvTmpWrite (data : bytes)
| EvTmpFlush
| EvTmpFsync
| EvReplace                                    (* os.replace(tmp, cover) *)
| EvTmpUnlink
| EvCoverRemove.                               (* os.remove(cover) *)

(** A computation reads and updates the two cover files, may raise, and
    emits events. *)
Definition M (A : Type) : Type := filesys -> result A * filesys * list event.

Definition ret {A : Type} (a : A) : M A := fun fs => (Ok a, fs, []).

Definition bind {A B : Type} (c : M A) (k : A -> M B) : M B :=
  fun fs =>
    match c fs with
    | (Ok a, fs1, t1) =>
        match k a fs1 with
        | (r, fs2, t2) => (r, fs2, t1 ++ t2)
        end
    | (Raise e, fs1, t1) => (Raise e, fs1, t1)
    end.

Definition lift {A : Type} (r : result A) : M A := fun fs => (r, fs, []).

Definition emit (e : event) : M unit := fun fs => (Ok tt, fs, [e]).

(** [try: c except Exception as e: handler e]. *)
Definition try_except {A : Type} (c : M A) (handler : exn -> M A) : M A :=
  fun fs =>
    match c fs with
    | (Ok a, fs1, t1) => (Ok a, fs1, t1)
    | (Raise e, fs1, t1) =>
        match handler e fs1 with
        | (r, fs2, t2) => (r, fs2, t1 ++ t2)
        end
    end.

(** [try: c finally: cleanup]: the cleanup runs whatever [c] did; what it
    raises replaces the outcome of [c]. *)
Definition try_finally {A : Type} (c : M A) (cleanup : M unit) : M A :=
  fun fs =>
    match c fs with
    | (r, fs1, t1) =>
        match cleanup fs1 with
        | (Ok _, fs2, t2) => (r, fs2, t1 ++ t2)
        | (Raise e, fs2, t2) => (Raise e, fs2, t1 ++ t2)
        end
    end.

Declare Scope io_scope.
Delimit Scope io_scope with io.
Notation "x <- c ;; k" := (bind c (fun x => k))
  (at level 61, c at next level, right associativity) : io_scope.
Notation "c ;; k" := (bind c (fun _ => k))
  (at level 61, right associativity) : io_scope.

Definition result_of {A : Type} (x : result A * filesys * list event) : result A :=
  fst (fst x).
Definition files_of {A : Type} (x : result A * filesys * list event) : filesys :=
  snd (fst x).
Definition trace_of {A : Type} (x : result A * filesys * list event) : list event :=
  snd x.

(* ===================================================================== *)
(** ** Cover art download *)
(* ===================================================================== *)

(** Where the download goes wrong, if anywhere.  A failed write may leave
    any content in the temp file. *)
Inductive fault : Type :=
| NoFault
| FetchFault                       (* Request / urlopen / read raises *)
| OpenFault                        (* open(tmp_path, "wb") raises *)
| WriteFault (written : bytes)     (* f.write raises *)
| FlushFault
| FsyncFault
| ReplaceFault.                    (* os.replace raises *)

(** The answer of the world to one download: the image the URL serves, the
    fault met in the [try] block, and whether [os.unlink] of the temp file
    raises in the handler. *)
Record cover_env : Type := {
  served : bytes;
  met : fault;
  unlink_fails : bool
}.

Definition fetch_cover (url : value) (env : cover_env) : M bytes :=
  fun fs =>
    match met env with
    | FetchFault => (Raise URLError, fs, [EvCoverGet url])
    | _ => (Ok (served env), fs, [EvCoverGet url])
    end.

Definition open_tmp (env : cover_env) : M unit :=
  fun fs =>
    match met env with
    | OpenFault => (Raise OSError, fs, [EvTmpOpen])
    | _ => (Ok tt, {| cover_file := cover_file fs; tmp_file := Some [] |}, [EvTmpOpen])
    end.

Definition write_tmp (data : bytes) (env : cover_env) : M unit :=
  fun fs =>
    match met env with
    | WriteFault written =>
        (Raise OSError, {| cover_file := cover_file fs; tmp_file := Some written |},
         [EvTmpWrite data])
    | _ => (Ok tt, {| cover_file := cover_file fs; tmp_file := Some data |},
            [EvTmpWrite data])
    end.

Definition flush_tmp (env : cover_env) : M unit :=
  fun fs =>
    match met env with
    | FlushFault => (Raise OSError, fs, [EvTmpFlush])
    | _ => (Ok tt, fs, [EvTmpFlush])
    end.

Definition fsync_tmp (env : cover_env) : M unit :=
  fun fs =>
    match met env with
    | FsyncFault => (Raise OSError, fs, [EvTmpFsync])
    | _ => (Ok tt, fs, [EvTmpFsync])
    end.

(** [os.replace(tmp_path, COVER_LOCAL_PATH)]: one step moves the temp file
    onto the public path. *)
Definition replace_cover (env : cover_env) : M unit :=
  fun fs =>
    match met env with
    | ReplaceFault => (Raise OSError, fs, [EvReplace])
    | _ => (Ok tt, {| cover_file := tmp_file fs; tmp_file := None |}, [EvReplace])
    end.

Definition tmp_exists : M bool :=
  fun fs => (Ok (match tmp_file fs with Some _ => true | None => false end), fs, []).

(** [os.unlink(tmp_path)]. *)
Definition unlink_tmp (fails : bool) : M unit :=
  fun fs =>
    if fails then (Raise OSError, fs, [EvTmpUnlink])
    else (Ok tt, {| cover_file := cover_file fs; tmp_file := None |}, [EvTmpUnlink]).

(** [download_cover].  The handler runs outside any other handler: when the
    removal of the temp file raises there, the exception leaves the
    function. *)
Definition download_cover (url : value) (env : cover_env) : M bool :=
  if negb (truthy url) then ret false else
  try_except
    (data <- fetch_cover url env ;;
     open_tmp env ;;
     write_tmp data env ;;
     flush_tmp env ;;
     fsync_tmp env ;;
     replace_cover env ;;
     ret true)%io
    (fun _ =>
       (e <- tmp_exists ;;
        (if e then unlink_tmp (unlink_fails env) else ret tt) ;;
        ret false)%io).

(* ===================================================================== *)
(** ** Clear cover art *)
(* ===================================================================== *)

Definition cover_exists : M bool :=
  fun fs => (Ok (match cover_file fs with Some _ => true | None => false end), fs, []).

(** [os.remove(COVER_LOCAL_PATH)]; [fails] says whether it raises. *)
Definition remove_cover (fails : bool) : M unit :=
  fun fs =>
    if fails then (Raise OSError, fs, [EvCoverRemove])
    else (Ok tt, {| cover_file := None; tmp_file := tmp_file fs |}, [EvCoverRemove]).

(** [clear_cover]. *)
Definition clear_cover (remove_fails : bool) : M unit :=
  try_except
    (e <- cover_exists ;;
     if e then remove_cover remove_fails else ret tt)%io
    (fun _ => ret tt).

(* ===================================================================== *)
(** ** Audio capture *)
(* ===================================================================== *)

(** What one ffmpeg run leaves: its return code and the outcome of
    [os.path.getsize] on the output file. *)
Record ffmpeg_run : Type := {
  returncode : Z;
  output_size : result Z
}.

(** What [capture_audio] returns; [run] raises when [subprocess.run] does
    (timeout or any other error), and every exception yields [False]. *)
Definition capture_ok (run : result ffmpeg_run) : bool :=
  match run with
  | Ok r =>
      if returncode r =? 0
      then match output_size r with
           | Ok n => 0 <? n
           | Raise _ => false
           end
      else false
  | Raise _ => false
  end.

Definition capture_audio (run : result ffmpeg_run) : M bool :=
  (emit EvCapture ;; ret (capture_ok run))%io.

(* ===================================================================== *)
(** ** Metadata update, track handling and the main loop *)
(* ===================================================================== *)

Section Orchestrator.

(** [str(v)] of a value that is not a str, as the f-string and [urlencode]
    compute it.  The rendering of such values is left open: every result
    below holds for any. *)
Variable py_repr : value -> string.

Definition py_str (v : value) : string :=
  match v with
  | VStr s => s
  | _ => py_repr v
  end.

(** [song = f"{artist} - {title}" if title else artist], as the string the
    query carries. *)
Definition compose_song (artist title : value) : string :=
  if truthy title
  then (py_str artist ++ " - " ++ py_str title)%string
  else py_str artist.

(** The [params] dict, in insertion order. *)
Definition metadata_params (artist title : value) (cover_url : string)
  : list (string * string) :=
  [("mount", ICECAST_MOUNT); ("mode", "updinfo"); ("song", compose_song artist title)]
  ++ (if (cover_url =? "")%string then [] else [("url", cover_url)]).

(** [urllib.parse.urlencode(params)]: every value is encoded as UTF-8 and
    quoted, which raises on a lone surrogate.  The query is kept as the
    parameters it encodes. *)
Definition urlencode (params : list (string * string))
  : result (list (string * string)) :=
  if existsb (fun kv => has_surrogate (fst kv) || has_surrogate (snd kv)) params
  then Raise UnicodeEncodeError
  else Ok params.

(** [update_icecast_metadata]: the query is encoded before the [try], so a
    raise of the encoding leaves the function; then the request is issued,
    and its answer only decides what is logged. *)
Definition update_icecast_metadata (artist title : value) (cover_url : string)
  : M unit :=
  (query <- lift (urlencode (metadata_params artist title cover_url)) ;;
   emit (EvMetadata query))%io.

(** [handle_track]. *)
Definition handle_track (track : value) (env : cover_env) : M unit :=
  (c <- lift (method_get track "cover" VNone) ;;
   cover_url <- (if truthy c
                 then url <- lift (subscript track "cover") ;;
                      ok <- download_cover url env ;;
                      ret (if ok : bool then COVER_PUBLIC_URL else "")
                 else ret "") ;;
   artist <- lift (subscript track "artist") ;;
   title <- lift (subscript track "title") ;;
   update_icecast_metadata artist title cover_url)%io.

(** The loop variables of [main].  [prev_listeners] holds the integer the
    stored count stands for. *)
Record loop_state : Type := {
  last_track : value;
  prev_listeners : Z
}.

Definition initial_state : loop_state :=
  {| last_track := VNone; prev_listeners := 0 |}.

(** The temporary wav file of a pass: whether
    [tempfile.NamedTemporaryFile] raises, whether the file is still there
    when the pass ends, and whether [os.unlink] raises on it. *)
Record wav_env : Type := {
  create_fails : bool;
  still_there : bool;
  unlink_wav_fails : bool
}.

(** The answers of the world to one capture-and-recognize pass; [client] is
    the outcome of constructing the Shazam client. *)
Record pass_env : Type := {
  wav : wav_env;
  ffmpeg : result ffmpeg_run;
  client : result unit;
  shazam : result value;
  cover : cover_env;
  remove_fails : bool
}.

(** The answers of the world to one iteration of the loop. *)
Record cycle_env : Type := {
  stats : result value;
  immediate : pass_env;
  regular : pass_env
}.

Definition sleep (seconds : Z) : M unit := emit (EvSleep seconds).

(** The call [recognize(tmp_path)]: the client is constructed before the
    [try] of [recognize], so a raise of its construction leaves the
    function; the rest is [recognize] above. *)
Definition run_recognize (env : pass_env) : M value :=
  (lift (client env) ;;
   emit EvRecognize ;;
   ret (recognize (shazam env)))%io.

(** [with tempfile.NamedTemporaryFile(...)] before a pass and the [finally]
    after it.  The wav file is private to the pass and leaves no event. *)
Definition with_temp_wav {A : Type} (env : wav_env) (body : M A) : M A :=
  (lift (if create_fails env then Raise OSError else Ok tt) ;;
   try_finally body
     (if still_there env
      then lift (if unlink_wav_fails env then Raise OSError else Ok tt)
      else ret tt))%io.

(** The [try] block of the activation branch; yields the new value of
    [last_track]. *)
Definition immediate_try (last : value) (env : pass_env) : M value :=
  (captured <- capture_audio (ffmpeg env) ;;
   if captured : bool then
     track <- run_recognize env ;;
     if truthy track && negb (py_eq track last) then
       handle_track track (cover env) ;;
       ret track
     else if negb (truthy track) then
       clear_cover (remove_fails env) ;;
       update_icecast_metadata (VStr "Unknown") (VStr "") "" ;;
       ret VNone
     else ret last
   else ret last)%io.

(** The body of the activation branch after the settle delay: the temp
    file, the [try] block and its [finally]. *)
Definition immediate_recognition (last : value) (env : pass_env) : M value :=
  with_temp_wav (wav env) (immediate_try last env).

(** The [try] block of the regular poll. *)
Definition regular_try (last : value) (env : pass_env) : M value :=
  (captured <- capture_audio (ffmpeg env) ;;
   if negb captured then ret last
   else
     track <- run_recognize env ;;
     if truthy track then
       if negb (py_eq track last) then
         handle_track track (cover env) ;;
         ret track
       else ret last
     else
       clear_cover (remove_fails env) ;;
       update_icecast_metadata (VStr "Unknown") (VStr "") "" ;;
       ret VNone)%io.

(** The regular poll: the temp file, the [try] block and its [finally]. *)
Definition regular_poll (last : value) (env : pass_env) : M value :=
  with_temp_wav (wav env) (regular_try last env).

(** The integer [listeners] is compared as; a count that is not a number
    makes [listeners < 1] raise. *)
Definition reading (env : cycle_env) : result Z :=
  to_int (get_listener_count (stats env)).

(** One iteration of [while True]. *)
Definition main_iter (s : loop_state) (env : cycle_env) : M loop_state :=
  (emit EvStatsGet ;;
   listeners <- lift (reading env) ;;
   if listeners <? 1 then
     (if prev_listeners s >=? 1
      then update_icecast_metadata (VStr "Paused") (VStr "") ""
      else ret tt) ;;
     sleep 15 ;;
     ret {| last_track := last_track s; prev_listeners := 0 |}
   else
     last <- (if (prev_listeners s =? 0) && (listeners >=? 1) then
                update_icecast_metadata (VStr "Detecting...") (VStr "") "" ;;
                sleep 5 ;;
                immediate_recognition (last_track s) (immediate env)
              else ret (last_track s)) ;;
     last' <- regular_poll last (regular env) ;;
     sleep POLL_INTERVAL ;;
     ret {| last_track := last'; prev_listeners := listeners |})%io.

(** The first iterations of the loop, one per element of [envs]. *)
Fixpoint main_loop (s : loop_state) (envs : list cycle_env) : M loop_state :=
  match envs with
  | [] => ret s
  | env :: rest => (s' <- main_iter s env ;; main_loop s' rest)%io
  end.

Definition main (envs : list cycle_env) : M loop_state :=
  main_loop initial_state envs.

End Orchestrator.


(* ===================================================================== *)
(** ** Vocabulary of the results *)
(* ===================================================================== *)

(** A source object of the stats document: a dict whose listener count, when
    present, is an integer. *)
Definition is_source (s : value) : bool :=
  match s with
  | VDict items =>
      match lookup "listeners" items with
      | None => true
      | Some (VInt _) => true
      | Some _ => false
      end
  | _ => false
  end.

(** The listener count a source declares, 0 when it declares none. *)
Definition declared_listeners (s : value) : Z :=
  match s with
  | VDict items =>
      match lookup "listeners" items with
      | Some (VInt n) => n
      | _ => 0
      end
  | _ => 0
  end.

Definition total_listeners (sources : list value) : Z :=
  fold_right Z.add 0 (map declared_listeners sources).

(** The metadata entries of a section, in response order. *)
Definition section_entries (section : value) : list value :=
  match section with
  | VDict items =>
      match lookup "metadata" items with
      | Some (VList metas) => metas
      | _ => []
      end
  | _ => []
  end.

(** An entry whose label equals "album", case-insensitively. *)
Definition is_album_entry (meta : value) : bool :=
  match meta with
  | VDict items =>
      match lookup "title" items with
      | Some (VStr label) => (lower label =? "album")%string
      | _ => false
      end
  | _ => false
  end.

Definition entry_text (meta : value) : value :=
  match meta with
  | VDict items =>
      match lookup "text" items with
      | Some v => v
      | None => VStr "Unknown"
      end
  | _ => VStr "Unknown"
  end.

(** The album as the specification words it: the first album entry across
    all sections, scanned in response order; "Unknown" when there is none. *)
Definition spec_album (sections : list value) : value :=
  match find is_album_entry (flat_map section_entries sections) with
  | Some meta => entry_text meta
  | None => VStr "Unknown"
  end.

(** A metadata entry the scan can read: a dict whose label, when present,
    is a str. *)
Definition readable_entry (meta : value) : bool :=
  match meta with
  | VDict items =>
      match lookup "title" items with
      | None => true
      | Some (VStr _) => true
      | Some _ => false
      end
  | _ => false
  end.

(** A section the scan can read: a dict whose metadata, when present, is a
    list of readable entries. *)
Definition readable_section (section : value) : bool :=
  match section with
  | VDict items =>
      match lookup "metadata" items with
      | None => true
      | Some (VList metas) => forallb readable_entry metas
      | Some _ => false
      end
  | _ => false
  end.

(** The album after the entries of one section have been scanned. *)
Definition album_after (album : value) (metas : list value) : value :=
  match find is_album_entry metas with
  | Some meta => entry_text meta
  | None => album
  end.

(** The song string as the specification words it: "artist - title" when
    both are present, the artist otherwise. *)
Definition spec_song (artist title : string) : string :=
  if negb (artist =? "")%string && negb (title =? "")%string
  then (artist ++ " - " ++ title)%string
  else artist.

(** The value of a query parameter. *)
Fixpoint param (k : string) (params : list (string * string)) : option string :=
  match params with
  | [] => None
  | (k', v) :: rest => if (k' =? k)%string then Some v else param k rest
  end.

(** The update a placeholder track produces: the artist alone as the song,
    no title, no cover URL. *)
Definition placeholder (artist : string) : event :=
  EvMetadata [("mount", ICECAST_MOUNT); ("mode", "updinfo"); ("song", artist)].

Definition is_metadata (e : event) : bool :=
  match e with
  | EvMetadata _ => true
  | _ => false
  end.

Definition is_capture (e : event) : bool :=
  match e with
  | EvCapture => true
  | _ => false
  end.

Definition is_sleep (e : event) : bool :=
  match e with
  | EvSleep _ => true
  | _ => false
  end.

(** The events of a cover download. *)
Definition is_download (e : event) : bool :=
  match e with
  | EvCoverGet _ | EvTmpOpen | EvTmpWrite _ | EvTmpFlush | EvTmpFsync
  | EvReplace | EvTmpUnlink => true
  | _ => false
  end.

(** Neither a metadata update nor part of a cover download. *)
Definition is_silent (e : event) : bool :=
  negb (is_metadata e) && negb (is_download e).

(** Neither a capture nor a wait. *)
Definition is_inner (e : event) : bool :=
  negb (is_capture e) && negb (is_sleep e).

(** The contract of the cover download at one call: it succeeds, the image
    served now at the public path and the temp file gone, after write,
    flush, sync and rename in this order; or it fails, no temp file is left
    and the public path holds what it held. *)
Definition download_contract (url : value) (env : cover_env) (fs : filesys) : Prop :=
  let out := download_cover url env fs in
  (result_of out = Ok true
   /\ files_of out = {| cover_file := Some (served env); tmp_file := None |}
   /\ trace_of out = [EvCoverGet url; EvTmpOpen; EvTmpWrite (served env);
                      EvTmpFlush; EvTmpFsync; EvReplace])
  \/ (result_of out = Ok false
      /\ tmp_file (files_of out) = None
      /\ cover_file (files_of out) = cover_file fs).

(** An iteration that finds no listener. *)
Definition is_idle (env : cycle_env) : bool :=
  match reading env with
  | Ok n => n <? 1
  | Raise _ => false
  end.

(** The pass reaches a recognition result: its temp file is created, its
    capture succeeds and the Shazam client is constructed. *)
Definition heard (env : pass_env) : bool :=
  negb (create_fails (wav env))
  && capture_ok (ffmpeg env)
  && match client env with
     | Ok _ => true
     | Raise _ => false
     end.

(** The removal of the temp wav file raises when the pass ends. *)
Definition cleanup_fails (env : pass_env) : bool :=
  still_there (wav env) && unlink_wav_fails (wav env).

(** The recognition results of a run, in program order. *)
Definition recognitions (envs : list cycle_env) : list value :=
  flat_map (fun env => [recognize (shazam (immediate env));
                        recognize (shazam (regular env))]) envs.

(* --------------------------------------------------------------------- *)
(** *** Sample inputs *)
(* --------------------------------------------------------------------- *)

Definition single_source : list (string * value) :=
  [("listeners", VInt 3); ("listenurl", VStr "http://localhost:8000/stream.mp3")].

Definition stats_single : list (string * value) :=
  [("icestats", VDict [("admin", VStr "icemaster@localhost");
                       ("source", VDict single_source)])].

Definition source_list : list value :=
  [VDict [("listeners", VInt 2)];
   VDict [("server_name", VStr "b")];
   VDict [("listeners", VInt 5)]].

Definition stats_list : list (string * value) :=
  [("icestats", VDict [("source", VList source_list)])].

Definition album_entry (text : string) : value :=
  VDict [("title", VStr "Album"); ("text", VStr text)].

Definition two_album_sections : list value :=
  [VDict [("type", VStr "SONG");
          ("metadata", VList [album_entry "Meddle";
                              VDict [("title", VStr "Released"); ("text", VStr "1971")]])];
   VDict [("type", VStr "RELATED");
          ("metadata", VList [album_entry "Echoes: The Best of Pink Floyd"])]].

Definition two_album_response : value :=
  VDict [("track", VDict [("title", VStr "Echoes");
                          ("subtitle", VStr "Pink Floyd");
                          ("sections", VList two_album_sections)])].

(** A rendering of non-str values for concrete runs; runs whose tracks carry
    str fields do not consult it. *)
Definition sample_repr (v : value) : string :=
  match v with
  | VNone => "None"
  | VBool true => "True"
  | VBool false => "False"
  | _ => "?"
  end.

Definition sample_image : bytes := [Byte.xff; Byte.xd8; Byte.xff; Byte.xe0].

Definition stale_tmp : filesys :=
  {| cover_file := Some [Byte.x01]; tmp_file := Some [Byte.xff; Byte.xd8] |}.

Definition served_fine : cover_env :=
  {| served := sample_image; met := NoFault; unlink_fails := false |}.

Definition served_torn : cover_env :=
  {| served := sample_image; met := WriteFault [Byte.xff]; unlink_fails := false |}.

(** A write that fails half way, and a temp file that cannot be removed. *)
Definition served_stuck : cover_env :=
  {| served := sample_image; met := WriteFault [Byte.xff]; unlink_fails := true |}.

(** Whether the download of [url] succeeds at this call. *)
Definition downloaded (url : value) (env : cover_env) (fs : filesys) : bool :=
  match result_of (download_cover url env fs) with
  | Ok true => true
  | _ => false
  end.

Definition echoes : value :=
  make_track (VStr "Echoes") (VStr "Pink Floyd") (VStr "Meddle")
             (VStr "http://x/cover.jpg").

Definition no_files : filesys := {| cover_file := None; tmp_file := None |}.

(** Pointwise comparison of two lists of the same length. *)
Fixpoint all2 (f : value -> value -> bool) (xs ys : list value) : bool :=
  match xs, ys with
  | [], [] => true
  | x :: xs', y :: ys' => f x y && all2 f xs' ys'
  | _, _ => false
  end.

(** Every item of a dict has an equal item under its key in [d2]. *)
Definition items_in (f : value -> value -> bool) (d d2 : list (string * value)) : bool :=
  forallb (fun kv => match lookup (fst kv) d2 with
                     | Some w => f (snd kv) w
                     | None => false
                     end) d.

(** The value of [last_track] after a pass that started with [last]. *)
Definition next_last (last : value) (env : pass_env) : value :=
  if capture_ok (ffmpeg env) then
    if truthy (recognize (shazam env)) then
      if py_eq (recognize (shazam env)) last then last
      else recognize (shazam env)
    else VNone
  else last.

Definition stats_of (n : Z) : result value :=
  Ok (VDict [("icestats", VDict [("source", VDict [("listeners", VInt n)])])]).

Definition good_run : result ffmpeg_run :=
  Ok {| returncode := 0; output_size := Ok 1411244 |}.

Definition failed_run : result ffmpeg_run := Raise TimeoutExpired.

Definition echoes_response : value :=
  VDict [("track",
          VDict [("title", VStr "Echoes");
                 ("subtitle", VStr "Pink Floyd");
                 ("sections", VList [VDict [("metadata", VList [album_entry "Meddle"])]]);
                 ("images", VDict [("coverart", VStr "http://x/cover.jpg")])])].

Definition no_match_response : value := VDict [("matches", VList [])].

Definition tidy_wav : wav_env :=
  {| create_fails := false; still_there := true; unlink_wav_fails := false |}.

Definition hears (response : value) : pass_env :=
  {| wav := tidy_wav; ffmpeg := good_run; client := Ok tt; shazam := Ok response;
     cover := served_fine; remove_fails := false |}.

Definition deaf : pass_env :=
  {| wav := tidy_wav; ffmpeg := failed_run; client := Ok tt;
     shazam := Raise TimeoutError; cover := served_fine; remove_fails := false |}.

Definition cycle (n : Z) (first second : pass_env) : cycle_env :=
  {| stats := stats_of n; immediate := first; regular := second |}.

Definition playing : loop_state := {| last_track := echoes; prev_listeners := 2 |}.

Definition first_listener : cycle_env :=
  cycle 1 (hears no_match_response) (hears echoes_response).

Definition steady_echoes : cycle_env := cycle 2 deaf (hears echoes_response).

Definition with_cover : filesys :=
  {| cover_file := Some sample_image; tmp_file := None |}.

Definition steady_no_match : cycle_env := cycle 2 deaf (hears no_match_response).

Definition silent_start : cycle_env := cycle 1 deaf deaf.

(** The str "\ud800": one lone surrogate. *)
Definition lone_surrogate : string :=
  String "237"%char (String "160"%char (String "128"%char EmptyString)).

(** A response whose track title holds a lone surrogate, as the JSON text
    ["title": "\ud800"] parses. *)
Definition surrogate_response : value :=
  VDict [("track", VDict [("title", VStr lone_surrogate);
                          ("subtitle", VStr "Pink Floyd")])].

Definition surrogate_track : value :=
  make_track (VStr lone_surrogate) (VStr "Pink Floyd") (VStr "Unknown") (VStr "").

(** The handler of the download reaches the removal of the temp file and
    the removal raises: something went wrong in the [try] block, a temp file
    is there, and [os.unlink] fails on it. *)
Definition cleanup_stuck (url : value) (env : cover_env) (fs : filesys) : bool :=
  truthy url
  && unlink_fails env
  && match met env with
     | NoFault => false
     | FetchFault | OpenFault =>
         match tmp_file fs with
         | Some _ => true
         | None => false
         end
     | WriteFault _ | FlushFault | FsyncFault | ReplaceFault => true
     end.

(** A first listener while a track is playing whose title holds a lone
    surrogate. *)
Definition surrogate_start : cycle_env :=
  cycle 1 (hears surrogate_response) (hears echoes_response).

Definition surrogate_steady : cycle_env := cycle 2 deaf (hears surrogate_response).

(* --------------------------------------------------------------------- *)
(** *** Further vocabulary *)
(* --------------------------------------------------------------------- *)

Definition is_dict (v : value) : bool :=
  match v with
  | VDict _ => true
  | _ => false
  end.

(** A source the sum raises on: an element that is not a dict (it has no
    [get]), or a dict whose listener count is a str, [None], a list or a
    dict (the int 0 cannot be added to it). *)
Definition breaks_sum (s : value) : bool :=
  match s with
  | VDict items =>
      match lookup "listeners" items with
      | Some (VStr _) => true
      | Some VNone => true
      | Some (VList _) => true
      | Some (VDict _) => true
      | Some (VInt _) => false
      | Some (VBool _) => false
      | None => false
      end
  | _ => true
  end.

(** A value that the comparison with 1 raises on: a str, [None], a list or
    a dict. *)
Definition not_a_number (v : value) : bool :=
  match v with
  | VStr _ | VNone | VList _ | VDict _ => true
  | VInt _ | VBool _ => false
  end.

Definition is_recognize (e : event) : bool :=
  match e with
  | EvRecognize => true
  | _ => false
  end.

Definition is_stats (e : event) : bool :=
  match e with
  | EvStatsGet => true
  | _ => false
  end.

(** The value under a key, or a default. *)
Definition field_or (k : string) (items : list (string * value)) (default : value)
  : value :=
  match lookup k items with
  | Some v => v
  | None => default
  end.

(** The cover the images of a track offer: the high-quality one when it is
    set, else the standard one when it is set, else the empty string. *)
Definition offered_cover (images : list (string * value)) : value :=
  if truthy (field_or "coverarthq" images VNone)
  then field_or "coverarthq" images VNone
  else if truthy (field_or "coverart" images VNone)
       then field_or "coverart" images VNone
       else VStr "".

(** The album the scan leaves after all sections. *)
Definition scanned_album (sections : list value) : value :=
  fold_left (fun found section => album_after found (section_entries section))
            sections (VStr "Unknown").

Definition bare_response : value :=
  VDict [("track", VDict [("key", VStr "40937751")])].

Definition hq_response : value :=
  VDict [("track",
          VDict [("title", VStr "Echoes");
                 ("images", VDict [("coverart", VStr "http://x/400.jpg");
                                   ("coverarthq", VStr "http://x/800.jpg")])])].

Definition broken_sections_response : value :=
  VDict [("track", VDict [("title", VStr "Echoes");
                          ("subtitle", VStr "Pink Floyd");
                          ("sections", VList [VDict [("metadata", VList [album_entry "Meddle"])];
                                              VStr "LYRICS"])])].

Definition mixed_sources : list value :=
  [VDict [("listeners", VInt 4)]; VDict [("listeners", VStr "n/a")]].

Definition stats_mixed : list (string * value) :=
  [("icestats", VDict [("source", VList mixed_sources)])].

Definition stats_text_count : value :=
  VDict [("icestats", VDict [("source", VDict [("listeners", VStr "3")])])].

Definition garbled : cycle_env :=
  {| stats := Ok stats_text_count; immediate := deaf; regular := deaf |}.

(** A stats reply whose single source object carries a listener count that
    is neither an int nor a bool. *)
Definition garbled_count (reply : result value) : bool :=
  match reply with
  | Ok (VDict doc) =>
      match lookup "icestats" doc with
      | Some (VDict ice) =>
          match lookup "source" ice with
          | Some (VDict src) =>
              match lookup "listeners" src with
              | Some v => not_a_number v
              | None => false
              end
          | _ => false
          end
      | _ => false
      end
  | _ => false
  end.

Definition stormy : pass_env :=
  {| wav := tidy_wav; ffmpeg := good_run; client := Ok tt;
     shazam := Ok echoes_response; cover := served_torn; remove_fails := true |}.

(** The images the downloads of a run serve. *)
Definition served_images (envs : list cycle_env) : list bytes :=
  flat_map (fun env => [served (cover (immediate env));
                        served (cover (regular env))]) envs.

Definition count (p : event -> bool) (tr : list event) : nat :=
  length (filter p tr).

Definition torn_download : pass_env :=
  {| wav := tidy_wav; ffmpeg := good_run; client := Ok tt;
     shazam := Ok echoes_response; cover := served_torn; remove_fails := false |}.

Definition coverless : value :=
  make_track (VStr "Echoes") (VStr "Pink Floyd") (VStr "Meddle") (VStr "").

Definition resume_echoes : cycle_env :=
  cycle 1 (hears echoes_response) (hears echoes_response).

(** The events a pass can emit. *)
Definition is_pass_event (e : event) : bool :=
  match e with
  | EvStatsGet | EvSleep _ => false
  | _ => true
  end.

Definition meddle_playing : loop_state :=
  {| last_track := make_track (VStr "One of These Days") (VStr "Pink Floyd")
                              (VStr "Meddle") (VStr "http://x/cover.jpg");
     prev_listeners := 2 |}.

(** The song of a recognized track can be encoded. *)
Definition song_encodes (repr : value -> string) (track : value) : bool :=
  match track with
  | VDict items =>
      negb (has_surrogate (compose_song repr (field_or "artist" items VNone)
                                        (field_or "title" items VNone)))
  | _ => true
  end.

(** A pass in which none of the unprotected statements raises: the temp wav
    file is created and removed, the Shazam client is constructed, the cover
    temp file can be removed, and the song of the recognized track can be
    encoded. *)
Definition pass_unbroken (repr : value -> string) (env : pass_env) : bool :=
  negb (create_fails (wav env))
  && negb (cleanup_fails env)
  && match client env with
     | Ok _ => true
     | Raise _ => false
     end
  && negb (unlink_fails (cover env))
  && song_encodes repr (recognize (shazam env)).

(** An iteration in which none of them raises, the comparison of the
    listener count included. *)
Definition unbroken (repr : value -> string) (env : cycle_env) : bool :=
  negb (garbled_count (stats env))
  && pass_unbroken repr (immediate env)
  && pass_unbroken repr (regular env).

(** No removal of the cover temp file fails in the iteration. *)
Definition temp_removable (env : cycle_env) : bool :=
  negb (unlink_fails (cover (immediate env)))
  && negb (unlink_fails (cover (regular env))).

(* ===================================================================== *)
(** ** Results: the listener probe *)
(* ===================================================================== *)

Lemma sum_listeners_sources (sources : list value) :
  forall acc,
    forallb is_source sources = true ->
    sum_listeners acc sources = Ok (acc + total_listeners sources).
Proof.
  induction sources as [|s rest IH]; intros acc Hall.
  - cbn. f_equal. lia.
  - cbn [forallb] in Hall. apply andb_true_iff in Hall as [Hs Hrest].
    cbn [sum_listeners]. unfold total_listeners. cbn [map fold_right].
    fold (total_listeners rest).
    destruct s as [| | | |?|items]; try discriminate Hs.
    cbn in Hs |- *.
    destruct (lookup "listeners" items) as [[| | n | | |]|]; try discriminate Hs; cbn.
    + rewrite (IH _ Hrest). f_equal. lia.
    + rewrite (IH _ Hrest). f_equal. lia.
Qed.

Lemma get_listener_count_of_raise (reply : result value) (e : exn) :
  get_listener_count_try reply = Raise e -> get_listener_count reply = VInt 0.
Proof. unfold get_listener_count. intros ->. reflexivity. Qed.

(** C2. For a stats document whose source is a single source object the
    count returned is that object's listener count (0 when the field is
    missing); for a list of source objects it is the sum of the counts
    present, missing ones counting 0; when the endpoint is unreachable,
    times out or sends malformed JSON (the reply raises), and whenever
    anything else raises inside the function, the count returned is 0.
    [get_listener_count] yields a value on every reply: its type has no
    exceptional outcome, the handler being its last resort. *)
Theorem get_listener_count_shapes :
  (forall doc ice src,
      lookup "icestats" doc = Some (VDict ice) ->
      lookup "source" ice = Some (VDict src) ->
      is_source (VDict src) = true ->
      get_listener_count (Ok (VDict doc)) = VInt (declared_listeners (VDict src)))
  /\ (forall doc ice sources,
      lookup "icestats" doc = Some (VDict ice) ->
      lookup "source" ice = Some (VList sources) ->
      forallb is_source sources = true ->
      get_listener_count (Ok (VDict doc)) = VInt (total_listeners sources))
  /\ (forall e, get_listener_count (Raise e) = VInt 0)
  /\ (forall reply e,
      get_listener_count_try reply = Raise e ->
      get_listener_count reply = VInt 0).
Proof.
  repeat split.
  - intros doc ice src Hice Hsrc Hwf.
    unfold get_listener_count, get_listener_count_try. cbn.
    rewrite Hice. cbn. rewrite Hsrc. cbn.
    cbn in Hwf.
    destruct (lookup "listeners" src) as [[| | n | | |]|]; try discriminate Hwf; reflexivity.
  - intros doc ice sources Hice Hsrc Hall.
    unfold get_listener_count, get_listener_count_try. cbn.
    rewrite Hice. cbn. rewrite Hsrc. cbn.
    rewrite (sum_listeners_sources sources 0 Hall). reflexivity.
  - intros reply e. apply get_listener_count_of_raise.
Qed.

Lemma get_listener_count_shapes_witness :
  get_listener_count (Ok (VDict stats_single)) = VInt 3
  /\ get_listener_count (Ok (VDict stats_list)) = VInt 7
  /\ get_listener_count (Raise JSONDecodeError) = VInt 0
  /\ get_listener_count (Ok (VList [])) = VInt 0.
Proof.
  destruct get_listener_count_shapes as [Hone [Hmany [Hraise Hany]]].
  split; [|split; [|split]].
  - exact (Hone stats_single _ single_source eq_refl eq_refl eq_refl).
  - exact (Hmany stats_list _ source_list eq_refl eq_refl eq_refl).
  - exact (Hraise JSONDecodeError).
  - exact (Hany (Ok (VList [])) AttributeError eq_refl).
Defined.

(* ===================================================================== *)
(** ** Results: the album of a recognition *)
(* ===================================================================== *)

Lemma scan_metadata_finds (metas : list value) (album : value) :
  forallb readable_entry metas = true ->
  scan_metadata metas album = Ok (album_after album metas).
Proof.
  unfold album_after.
  induction metas as [|meta rest IH]; intros Hall; [reflexivity|].
  cbn [forallb] in Hall. apply andb_true_iff in Hall as [Hmeta Hrest].
  destruct meta as [| | | | |items]; try discriminate Hmeta.
  cbn [scan_metadata method_get find is_album_entry entry_text].
  cbn in Hmeta.
  destruct (lookup "title" items) as [[| | |label| |]|]; try discriminate Hmeta;
    cbn [rbind method_lower].
  - destruct (lower label =? "album")%string.
    + cbn [entry_text]. destruct (lookup "text" items); reflexivity.
    + exact (IH Hrest).
  - cbn. exact (IH Hrest).
Qed.

(** On readable sections the scan folds over the sections: each section
    that holds an album entry replaces the album found so far, so the last
    such section decides. *)
Lemma scan_sections_last_wins (sections : list value) :
  forall album,
    forallb readable_section sections = true ->
    scan_sections sections album
    = Ok (fold_left (fun found section => album_after found (section_entries section))
                    sections album).
Proof.
  induction sections as [|section rest IH]; intros album Hall; [reflexivity|].
  cbn [forallb] in Hall. apply andb_true_iff in Hall as [Hsec Hrest].
  destruct section as [| | | | |items]; try discriminate Hsec.
  cbn [scan_sections method_get fold_left section_entries].
  cbn in Hsec.
  destruct (lookup "metadata" items) as [[| | | |metas|]|]; try discriminate Hsec;
    cbn [rbind py_iter].
  - rewrite (scan_metadata_finds metas album Hsec). cbn [rbind].
    exact (IH _ Hrest).
  - cbn. exact (IH _ Hrest).
Qed.

(** With a single section the scan returns the first album entry. *)
Lemma scan_single_section (section : value) :
  readable_section section = true ->
  scan_sections [section] (VStr "Unknown") = Ok (spec_album [section]).
Proof.
  intros Hsec. rewrite scan_sections_last_wins by (cbn; now rewrite Hsec).
  unfold spec_album, album_after. cbn [fold_left flat_map]. rewrite app_nil_r.
  reflexivity.
Qed.

(** C1. On a response with two sections that each carry an album entry,
    [recognize] returns the album of the later section, while the first
    album entry in scan order is the one of the earlier section: the
    [break] leaves only the inner loop, and a later section overwrites the
    album found before. *)
Theorem recognize_album_later_section_overwrites :
  recognize (Ok two_album_response)
  = make_track (VStr "Echoes") (VStr "Pink Floyd")
               (VStr "Echoes: The Best of Pink Floyd") (VStr "")
  /\ spec_album two_album_sections = VStr "Meddle"
  /\ subscript (recognize (Ok two_album_response)) "album"
     <> Ok (spec_album two_album_sections).
Proof.
  split; [reflexivity|]. split; [reflexivity|].
  cbv. discriminate.
Qed.

(* ===================================================================== *)
(** ** Results: equality of values and of tracks *)
(* ===================================================================== *)

(** Induction over values, with the hypothesis on every item of a list and
    of a dict. *)
Lemma value_nested_ind (P : value -> Prop) :
  P VNone ->
  (forall b, P (VBool b)) ->
  (forall n, P (VInt n)) ->
  (forall s, P (VStr s)) ->
  (forall items, Forall P items -> P (VList items)) ->
  (forall items, Forall (fun kv => P (snd kv)) items -> P (VDict items)) ->
  forall v, P v.
Proof.
  intros HN HB HI HS HL HD.
  fix IH 1. intros [| b | n | s | items | items].
  - exact HN.
  - apply HB.
  - apply HI.
  - apply HS.
  - apply HL.
    revert items. fix IHl 1. intros [|x rest].
    + constructor.
    + constructor; [apply IH | apply IHl].
  - apply HD.
    revert items. fix IHl 1. intros [|[k x] rest].
    + constructor.
    + constructor; [apply IH | apply IHl].
Qed.

Lemma py_eq_list (xs ys : list value) :
  py_eq (VList xs) (VList ys) = all2 py_eq xs ys.
Proof.
  revert ys. induction xs as [|x xs IH]; intros [|y ys]; try reflexivity.
  cbn [all2]. rewrite <- IH. reflexivity.
Qed.

Lemma py_eq_dict (d1 d2 : list (string * value)) :
  py_eq (VDict d1) (VDict d2)
  = Nat.eqb (length d1) (length d2) && items_in py_eq d1 d2.
Proof.
  cbn [py_eq]. f_equal.
  induction d1 as [|[k v] d1 IH]; [reflexivity|].
  unfold items_in in *. cbn [forallb fst snd]. rewrite <- IH. reflexivity.
Qed.

Lemma lookup_In (k : string) (d : list (string * value)) (v : value) :
  lookup k d = Some v -> In (k, v) d.
Proof.
  induction d as [|[k' w] d IH]; cbn; [discriminate|].
  destruct (String.eqb_spec k' k) as [->|Hne]; intros H.
  - injection H as ->. now left.
  - right. auto.
Qed.

(** Equalities between booleans and integers, decided as facts about
    integers. *)
Ltac scalar_eq :=
  repeat match goal with
         | H : Bool.eqb _ _ = true |- _ => apply Bool.eqb_prop in H
         | H : (_ =? _) = true |- _ => apply Z.eqb_eq in H
         end;
  subst;
  try apply Z.eqb_eq;
  try apply Bool.eqb_true_iff;
  repeat match goal with
         | b : bool |- _ => destruct b
         end;
  cbn in *; congruence.

Lemma py_eq_trans (a : value) :
  forall b c, py_eq a b = true -> py_eq b c = true -> py_eq a c = true.
Proof.
  induction a as [| x | x | x | xs IH | d1 IH] using value_nested_ind;
    intros b c Hab Hbc.
  - destruct b; try discriminate Hab. exact Hbc.
  - destruct b as [| y | y | | |]; try discriminate Hab;
      destruct c as [| z | z | | |]; try discriminate Hbc;
      cbn in *; scalar_eq.
  - destruct b as [| y | y | | |]; try discriminate Hab;
      destruct c as [| z | z | | |]; try discriminate Hbc;
      cbn in *; scalar_eq.
  - destruct b; try discriminate Hab. cbn in Hab.
    apply String.eqb_eq in Hab. subst. exact Hbc.
  - destruct b as [| | | | ys |]; try discriminate Hab.
    destruct c as [| | | | zs |]; try discriminate Hbc.
    rewrite py_eq_list in *.
    revert ys zs Hab Hbc.
    induction IH as [|x xs Hx _ IHxs]; intros [|y ys] [|z zs] Hab Hbc;
      try discriminate; try reflexivity.
    cbn [all2] in *.
    apply andb_true_iff in Hab as [Hxy Hab].
    apply andb_true_iff in Hbc as [Hyz Hbc].
    apply andb_true_iff. split; [exact (Hx _ _ Hxy Hyz) | exact (IHxs _ _ Hab Hbc)].
  - destruct b as [| | | | | d2]; try discriminate Hab.
    destruct c as [| | | | | d3]; try discriminate Hbc.
    rewrite py_eq_dict in *.
    apply andb_true_iff in Hab as [Hlen12 Hab].
    apply andb_true_iff in Hbc as [Hlen23 Hbc].
    apply andb_true_iff. split.
    + apply Nat.eqb_eq in Hlen12, Hlen23. apply Nat.eqb_eq. congruence.
    + unfold items_in in *.
      rewrite forallb_forall in Hab, Hbc. apply forallb_forall.
      intros [k v] Hin.
      rewrite Forall_forall in IH.
      specialize (Hab _ Hin). cbn [fst snd] in *.
      destruct (lookup k d2) as [w|] eqn:Hw; [|discriminate Hab].
      specialize (Hbc _ (lookup_In _ _ _ Hw)). cbn [fst snd] in Hbc.
      destruct (lookup k d3) as [u|]; [|discriminate Hbc].
      exact (IH _ Hin _ _ Hab Hbc).
Qed.

(** A dict is never equal to [None], nor to the empty dict when it has an
    item. *)
Lemma py_eq_track_none (title artist album cover : value) :
  py_eq (make_track title artist album cover) VNone = false.
Proof. reflexivity. Qed.

Lemma py_eq_tracks (t a al c t' a' al' c' : value) :
  py_eq (make_track t a al c) (make_track t' a' al' c')
  = py_eq t t' && py_eq a a' && py_eq al al' && py_eq c c'.
Proof.
  unfold make_track. rewrite py_eq_dict. cbn.
  rewrite andb_true_r, !andb_assoc. reflexivity.
Qed.

(** The result of a recognition is the empty dict or a four-field track. *)
Lemma recognize_shape (reply : result value) :
  recognize reply = VDict []
  \/ exists title artist album cover,
      recognize reply = make_track title artist album cover.
Proof.
  unfold recognize, recognize_try.
  destruct reply as [res|e]; cbn; [|now left].
  destruct (method_get res "track" (VDict [])) as [track|e]; cbn; [|now left].
  destruct (truthy track); cbn; [|now left].
  destruct (method_get track "sections" (VList [])) as [secs|e]; cbn; [|now left].
  destruct (py_iter secs) as [sections|e]; cbn; [|now left].
  destruct (scan_sections sections (VStr "Unknown")) as [album|e]; cbn; [|now left].
  destruct (method_get track "images" (VDict [])) as [images|e]; cbn; [|now left].
  destruct (method_get images "coverarthq" VNone) as [hq|e]; cbn; [|now left].
  destruct (truthy hq); cbn.
  - destruct (method_get track "title" (VStr "Unknown")) as [title|e]; cbn; [|now left].
    destruct (method_get track "subtitle" (VStr "Unknown")) as [artist|e]; cbn;
      [|now left].
    right. eauto.
  - destruct (method_get images "coverart" VNone) as [std|e]; cbn; [|now left].
    destruct (method_get track "title" (VStr "Unknown")) as [title|e]; cbn; [|now left].
    destruct (method_get track "subtitle" (VStr "Unknown")) as [artist|e]; cbn;
      [|now left].
    right. eauto.
Qed.

Lemma recognize_truthy (reply : result value) :
  truthy (recognize reply) = true ->
  exists title artist album cover,
    recognize reply = make_track title artist album cover.
Proof.
  destruct (recognize_shape reply) as [H|H]; [|auto].
  rewrite H. discriminate.
Qed.

Lemma recognize_falsy (reply : result value) :
  truthy (recognize reply) = false -> recognize reply = VDict [].
Proof.
  destruct (recognize_shape reply) as [H|[t [a [al [c H]]]]]; [auto|].
  rewrite H. discriminate.
Qed.

(* ===================================================================== *)
(** ** Results: the song string *)
(* ===================================================================== *)

(** Unfolds the plumbing of the effect layer and computes. *)
Ltac run_io :=
  cbv beta iota zeta delta
      [bind lift ret emit try_except try_finally fetch_cover open_tmp write_tmp
       flush_tmp fsync_tmp replace_cover tmp_exists unlink_tmp cover_exists
       remove_cover sleep run_recognize capture_audio
       result_of files_of trace_of fst snd met served unlink_fails
       cover_file tmp_file];
  cbn [app].

(** The encoding of the query of an update: its constants hold no
    surrogate, so it raises exactly when the song or the URL does. *)
Lemma urlencode_metadata (repr : value -> string) (artist title : value)
      (cover_url : string) :
  urlencode (metadata_params repr artist title cover_url)
  = if has_surrogate (compose_song repr artist title) || has_surrogate cover_url
    then Raise UnicodeEncodeError
    else Ok (metadata_params repr artist title cover_url).
Proof.
  unfold urlencode, metadata_params.
  destruct (String.eqb_spec cover_url "") as [->|Hurl].
  - cbn [app existsb fst snd].
    change (has_surrogate "mount") with false.
    change (has_surrogate ICECAST_MOUNT) with false.
    change (has_surrogate "mode") with false.
    change (has_surrogate "updinfo") with false.
    change (has_surrogate "song") with false.
    change (has_surrogate "") with false.
    cbn [orb]. rewrite !orb_false_r. reflexivity.
  - cbn [app existsb fst snd].
    change (has_surrogate "mount") with false.
    change (has_surrogate ICECAST_MOUNT) with false.
    change (has_surrogate "mode") with false.
    change (has_surrogate "updinfo") with false.
    change (has_surrogate "song") with false.
    change (has_surrogate "url") with false.
    cbn [orb]. rewrite !orb_false_r. reflexivity.
Qed.

(** What [update_icecast_metadata] does. *)
Lemma update_run (repr : value -> string) (artist title : value)
      (cover_url : string) (fs : filesys) :
  update_icecast_metadata repr artist title cover_url fs
  = if has_surrogate (compose_song repr artist title) || has_surrogate cover_url
    then (Raise UnicodeEncodeError, fs, [])
    else (Ok tt, fs, [EvMetadata (metadata_params repr artist title cover_url)]).
Proof.
  unfold update_icecast_metadata. run_io. rewrite urlencode_metadata.
  destruct (has_surrogate (compose_song repr artist title) || has_surrogate cover_url);
    reflexivity.
Qed.

(** The placeholders are constants without surrogates: their update is
    always sent. *)
Lemma placeholder_update (repr : value -> string) (artist : string) (fs : filesys) :
  has_surrogate artist = false ->
  update_icecast_metadata repr (VStr artist) (VStr "") "" fs
  = (Ok tt, fs, [placeholder artist]).
Proof.
  intros Hartist. rewrite update_run.
  change (compose_song repr (VStr artist) (VStr "")) with artist.
  rewrite Hartist. reflexivity.
Qed.

(** C8 (as the code has it). For every artist and title, the song string of
    the metadata update is "artist - title" whenever the title is not empty,
    whatever the artist, and the artist alone when the title is empty: every
    update sent carries it, and the update is sent unless the song or the
    URL holds a lone surrogate, on which the encoding of the query raises.
    The song is the string the specification words whenever the artist is
    not empty or the title is empty. *)
Theorem song_depends_on_title_only :
  forall (repr : value -> string) (artist title cover_url : string) (fs : filesys),
    let song := if (title =? "")%string then artist
                else (artist ++ " - " ++ title)%string in
    let out := update_icecast_metadata repr (VStr artist) (VStr title) cover_url fs in
    (forall params,
        In (EvMetadata params) (trace_of out) -> param "song" params = Some song)
    /\ (has_surrogate song = false -> has_surrogate cover_url = false ->
        exists params,
          out = (Ok tt, fs, [EvMetadata params])
          /\ param "song" params = Some song)
    /\ (has_surrogate song || has_surrogate cover_url = true ->
        out = (Raise UnicodeEncodeError, fs, []))
    /\ ((artist =? "")%string && negb (title =? "")%string = false ->
        song = spec_song artist title).
Proof.
  intros repr artist title cover_url fs song out. subst out.
  rewrite update_run.
  assert (Hsong : compose_song repr (VStr artist) (VStr title) = song).
  { unfold compose_song, song. cbn [truthy py_str].
    destruct (title =? "")%string; reflexivity. }
  rewrite Hsong.
  assert (Hparam : param "song" (metadata_params repr (VStr artist) (VStr title) cover_url)
                   = Some song).
  { unfold metadata_params. cbn. rewrite Hsong. reflexivity. }
  split; [|split; [|split]].
  - intros params Hin.
    destruct (has_surrogate song || has_surrogate cover_url); cbn in Hin.
    + contradiction.
    + destruct Hin as [Hin|[]]. injection Hin as <-. exact Hparam.
  - intros Hs Hu. rewrite Hs, Hu. cbn [orb]. eexists. split; [reflexivity|exact Hparam].
  - intros ->. reflexivity.
  - unfold song, spec_song.
    destruct (title =? "")%string, (artist =? "")%string; cbn;
      intros H; try discriminate H; reflexivity.
Qed.

Lemma song_depends_on_title_only_witness :
  (exists params,
      update_icecast_metadata sample_repr (VStr "Pink Floyd") (VStr "Echoes")
                              COVER_PUBLIC_URL stale_tmp
      = (Ok tt, stale_tmp, [EvMetadata params])
      /\ param "song" params = Some "Pink Floyd - Echoes")
  /\ update_icecast_metadata sample_repr (VStr "Pink Floyd") (VStr lone_surrogate)
                             "" stale_tmp
     = (Raise UnicodeEncodeError, stale_tmp, [])
  /\ "Pink Floyd - Echoes" = spec_song "Pink Floyd" "Echoes".
Proof.
  pose proof (song_depends_on_title_only sample_repr "Pink Floyd" "Echoes"
                COVER_PUBLIC_URL stale_tmp) as Hsent.
  pose proof (song_depends_on_title_only sample_repr "Pink Floyd" lone_surrogate
                "" stale_tmp) as Hraise.
  cbv zeta in Hsent, Hraise.
  destruct Hsent as [_ [Hsent [_ Hspec]]].
  destruct Hraise as [_ [_ [Hraise _]]].
  split; [exact (Hsent eq_refl eq_refl)|].
  split; [exact (Hraise eq_refl) | exact (Hspec eq_refl)].
Defined.

(** With an empty artist and a title the song is " - title", not the
    (empty) artist. *)
Lemma song_of_empty_artist_differs :
  compose_song sample_repr (VStr "") (VStr "Echoes") = " - Echoes"
  /\ spec_song "" "Echoes" = ""
  /\ compose_song sample_repr (VStr "") (VStr "Echoes") <> spec_song "" "Echoes".
Proof.
  split; [reflexivity|]. split; [reflexivity|]. cbv. discriminate.
Qed.

(* ===================================================================== *)
(** ** Results: the cover download *)
(* ===================================================================== *)

(** The download raises exactly when its handler cannot remove the temp
    file; otherwise it returns a boolean. *)
Lemma download_cover_result (url : value) (env : cover_env) (fs : filesys) :
  if cleanup_stuck url env fs
  then result_of (download_cover url env fs) = Raise OSError
  else exists ok, result_of (download_cover url env fs) = Ok ok.
Proof.
  unfold cleanup_stuck, download_cover. destruct (truthy url); cbn [negb andb].
  - destruct env as [data flt stuck]. destruct flt, stuck, fs as [c [t|]]; cbn;
      try reflexivity; eexists; reflexivity.
  - eexists. reflexivity.
Qed.

Lemma download_cover_trace (url : value) (env : cover_env) (fs : filesys) :
  forallb is_download (trace_of (download_cover url env fs)) = true.
Proof.
  unfold download_cover. destruct (truthy url); cbn.
  - destruct env as [data flt stuck]. destruct flt, stuck, fs as [c [t|]]; reflexivity.
  - reflexivity.
Qed.

(** Short of a temp file that cannot be removed, the download keeps its
    contract on every non-empty URL, and succeeds exactly when nothing goes
    wrong; an empty URL is refused at once. *)
Lemma download_cover_all_or_nothing :
  (forall url env fs,
      truthy url = true ->
      unlink_fails env = false ->
      download_contract url env fs
      /\ (result_of (download_cover url env fs) = Ok true <-> met env = NoFault))
  /\ (forall url env fs,
      truthy url = false ->
      download_cover url env fs = (Ok false, fs, [])).
Proof.
  split.
  - intros url [data flt stuck] fs Hurl Hstuck. cbn in Hstuck. subst stuck.
    unfold download_contract, download_cover. rewrite Hurl. cbn [negb].
    destruct flt; destruct fs as [c [t|]]; cbn;
      (split; [ first [ left; repeat split; reflexivity
                      | right; repeat split; reflexivity ]
              | split; intros H; first [ reflexivity | discriminate H ] ]).
  - intros url env fs Hurl. unfold download_cover. rewrite Hurl. reflexivity.
Qed.

(** C7. When the write of the image fails half way and the temp file cannot
    be removed, the download neither succeeds nor returns false: the
    [OSError] of [os.unlink], raised inside the handler, leaves the
    function, and the partial temp file stays.  The handler removes the temp
    file outside any protection, unlike [clear_cover], which guards its
    removal. *)
Theorem download_cover_stuck_temp_file_escapes :
  download_cover (VStr "http://x/cover.jpg") served_stuck with_cover
  = (Raise OSError,
     {| cover_file := Some sample_image; tmp_file := Some [Byte.xff] |},
     [EvCoverGet (VStr "http://x/cover.jpg"); EvTmpOpen; EvTmpWrite sample_image;
      EvTmpUnlink])
  /\ ~ download_contract (VStr "http://x/cover.jpg") served_stuck with_cover.
Proof.
  split; [reflexivity|].
  unfold download_contract. cbn. intros [[H _]|[H _]]; discriminate H.
Qed.

(* ===================================================================== *)
(** ** Results: handling a recognized track *)
(* ===================================================================== *)

(** What [handle_track] does on a four-field track: the download, when the
    cover is set, then one metadata update; a raise of the download or of
    the encoding of the query leaves the function. *)
Lemma handle_track_run (repr : value -> string)
      (title artist album url : value) (env : cover_env) (fs : filesys) :
  handle_track repr (make_track title artist album url) env fs
  = match result_of (download_cover url env fs) with
    | Raise e =>
        (Raise e, files_of (download_cover url env fs),
         trace_of (download_cover url env fs))
    | Ok _ =>
        if has_surrogate (compose_song repr artist title)
        then (Raise UnicodeEncodeError, files_of (download_cover url env fs),
              trace_of (download_cover url env fs))
        else (Ok tt, files_of (download_cover url env fs),
              trace_of (download_cover url env fs)
              ++ [EvMetadata (metadata_params repr artist title
                                (if downloaded url env fs
                                 then COVER_PUBLIC_URL else ""))])
    end.
Proof.
  unfold handle_track, make_track, downloaded.
  cbn [method_get lookup String.eqb Ascii.eqb Bool.eqb subscript].
  run_io.
  destruct (truthy url) eqn:Hurl.
  - destruct (download_cover url env fs) as [[[ok|e] fs1] tr1].
    + rewrite update_run.
      assert (Hconst : has_surrogate (if ok then COVER_PUBLIC_URL else "") = false)
        by (destruct ok; reflexivity).
      rewrite Hconst, orb_false_r, app_nil_r.
      destruct (has_surrogate (compose_song repr artist title)), ok;
        cbn [app]; rewrite ?app_nil_r; reflexivity.
    + rewrite ?app_nil_r. reflexivity.
  - unfold download_cover. rewrite Hurl. cbn [negb ret]. run_io.
    rewrite update_run. cbn [has_surrogate]. rewrite orb_false_r.
    destruct (has_surrogate (compose_song repr artist title)); reflexivity.
Qed.

Lemma filter_metadata_download (tr : list event) :
  forallb is_download tr = true -> filter is_metadata tr = [].
Proof.
  induction tr as [|e tr IH]; intros H; [reflexivity|].
  cbn in H. apply andb_true_iff in H as [He Htr].
  cbn. destruct e; try discriminate He; cbn; auto.
Qed.

(** Short of a raise, [handle_track] issues exactly one metadata update on
    every four-field track: without URL when the cover is empty or the
    download returns false, with the public cover URL when it returns
    true. *)
Lemma handle_track_updates_once (repr : value -> string)
      (title artist album url : value) (env : cover_env) (fs : filesys) :
  cleanup_stuck url env fs = false ->
  has_surrogate (compose_song repr artist title) = false ->
  let out := handle_track repr (make_track title artist album url) env fs in
  result_of out = Ok tt
  /\ exists params,
      filter is_metadata (trace_of out) = [EvMetadata params]
      /\ param "song" params = Some (compose_song repr artist title)
      /\ (truthy url = false ->
          trace_of out = [EvMetadata params] /\ param "url" params = None)
      /\ (result_of (download_cover url env fs) = Ok false ->
          param "url" params = None)
      /\ (result_of (download_cover url env fs) = Ok true ->
          param "url" params = Some COVER_PUBLIC_URL).
Proof.
  intros Hstuck Hsong out. subst out.
  rewrite handle_track_run, Hsong.
  pose proof (download_cover_result url env fs) as Hres. rewrite Hstuck in Hres.
  destruct Hres as [ok Hok]. rewrite Hok.
  cbn [result_of trace_of fst snd].
  split; [reflexivity|].
  eexists. split.
  - rewrite filter_app, (filter_metadata_download _ (download_cover_trace _ _ _)).
    reflexivity.
  - split; [reflexivity|]. unfold downloaded. rewrite Hok.
    split; [|split]; intros H.
    + unfold download_cover in *. rewrite H in *. cbn in Hok.
      injection Hok as <-. split; reflexivity.
    + injection H as ->. reflexivity.
    + injection H as ->. reflexivity.
Qed.

(** C9. On a recognized track whose title holds a lone surrogate
    [handle_track] issues no metadata update: the encoding of the query,
    which [update_icecast_metadata] runs before its [try], raises
    [UnicodeEncodeError], and the exception leaves [handle_track].  So does
    the [OSError] of a download whose temp file cannot be removed: the
    update is not issued "regardless of cover outcome". *)
Theorem handle_track_raises_without_update :
  (forall (repr : value -> string) (env : cover_env) (fs : filesys),
      handle_track repr surrogate_track env fs = (Raise UnicodeEncodeError, fs, []))
  /\ (forall repr : value -> string,
      result_of (handle_track repr echoes served_stuck with_cover) = Raise OSError
      /\ filter is_metadata (trace_of (handle_track repr echoes served_stuck with_cover))
         = []).
Proof.
  split.
  - intros repr env fs. unfold surrogate_track. rewrite handle_track_run.
    reflexivity.
  - intros repr. unfold echoes. rewrite handle_track_run. split; reflexivity.
Qed.

(* ===================================================================== *)
(** ** Results: one capture-and-recognize pass *)
(* ===================================================================== *)

Lemma triple_eta {A : Type} (x : result A * filesys * list event) :
  x = (result_of x, files_of x, trace_of x).
Proof. destruct x as [[r fs] tr]. reflexivity. Qed.

Lemma clear_cover_run (fails : bool) (fs : filesys) :
  clear_cover fails fs
  = match cover_file fs with
    | None => (Ok tt, fs, [])
    | Some _ =>
        if fails then (Ok tt, fs, [EvCoverRemove])
        else (Ok tt, {| cover_file := None; tmp_file := tmp_file fs |}, [EvCoverRemove])
    end.
Proof.
  unfold clear_cover. run_io. destruct fs as [[c|] t]; cbn; [|reflexivity].
  destruct fails; reflexivity.
Qed.

Lemma clear_cover_returns (fails : bool) (fs : filesys) :
  result_of (clear_cover fails fs) = Ok tt.
Proof.
  rewrite clear_cover_run. destruct (cover_file fs); [destruct fails|]; reflexivity.
Qed.

Lemma clear_cover_trace (fails : bool) (fs : filesys) :
  trace_of (clear_cover fails fs) = []
  \/ trace_of (clear_cover fails fs) = [EvCoverRemove].
Proof.
  rewrite clear_cover_run. destruct (cover_file fs); [destruct fails|]; cbn; auto.
Qed.

(** The temp wav file around a pass. *)
Lemma with_temp_wav_run {A : Type} (env : wav_env) (body : M A) (fs : filesys) :
  with_temp_wav env body fs
  = if create_fails env then (Raise OSError, fs, [])
    else (if still_there env && unlink_wav_fails env
          then Raise OSError else result_of (body fs),
          files_of (body fs), trace_of (body fs)).
Proof.
  unfold with_temp_wav. run_io.
  destruct (create_fails env); [reflexivity|].
  destruct (body fs) as [[r fs1] tr1]. cbn [result_of files_of trace_of fst snd].
  destruct (still_there env); [destruct (unlink_wav_fails env)|];
    cbn [andb app]; rewrite ?app_nil_r; reflexivity.
Qed.

(** The [try] block of the regular poll, case by case. *)
Lemma regular_try_run (repr : value -> string) (last : value) (env : pass_env)
      (fs : filesys) :
  regular_try repr last env fs
  = if capture_ok (ffmpeg env) then
      match client env with
      | Raise e => (Raise e, fs, [EvCapture])
      | Ok _ =>
          let track := recognize (shazam env) in
          if truthy track then
            if py_eq track last then (Ok last, fs, [EvCapture; EvRecognize])
            else
              let out := handle_track repr track (cover env) fs in
              (match result_of out with
               | Ok _ => Ok track
               | Raise e => Raise e
               end,
               files_of out, EvCapture :: EvRecognize :: trace_of out)
          else
            let out := clear_cover (remove_fails env) fs in
            (Ok VNone, files_of out,
             EvCapture :: EvRecognize :: trace_of out ++ [placeholder "Unknown"])
      end
    else (Ok last, fs, [EvCapture]).
Proof.
  unfold regular_try. run_io.
  destruct (capture_ok (ffmpeg env)); cbn [negb]; [|reflexivity].
  destruct (client env) as [[]|e]; [|reflexivity].
  cbv zeta.
  destruct (truthy (recognize (shazam env))) eqn:Htrack.
  - destruct (py_eq (recognize (shazam env)) last); cbn [negb]; [reflexivity|].
    destruct (handle_track repr (recognize (shazam env)) (cover env) fs)
      as [[[[]|e] fs1] tr1]; cbn [result_of files_of trace_of fst snd];
      rewrite ?app_nil_r; reflexivity.
  - pose proof (clear_cover_returns (remove_fails env) fs) as Hok.
    destruct (clear_cover (remove_fails env) fs) as [[r fs'] tr].
    cbn in Hok. subst r.
    rewrite (placeholder_update repr "Unknown" fs' eq_refl). reflexivity.
Qed.

(** Both [try] blocks test and act alike. *)
Lemma tries_agree (repr : value -> string) (last : value) (env : pass_env)
      (fs : filesys) :
  immediate_try repr last env fs = regular_try repr last env fs.
Proof.
  rewrite regular_try_run. unfold immediate_try. run_io.
  destruct (capture_ok (ffmpeg env)); [|reflexivity].
  destruct (client env) as [[]|e]; [|reflexivity].
  cbv zeta.
  destruct (truthy (recognize (shazam env))) eqn:Htrack.
  - destruct (py_eq (recognize (shazam env)) last); cbn [negb andb]; [reflexivity|].
    destruct (handle_track repr (recognize (shazam env)) (cover env) fs)
      as [[[[]|e] fs1] tr1]; cbn [result_of files_of trace_of fst snd];
      rewrite ?app_nil_r; reflexivity.
  - cbn [negb andb].
    pose proof (clear_cover_returns (remove_fails env) fs) as Hok.
    destruct (clear_cover (remove_fails env) fs) as [[r fs'] tr].
    cbn in Hok. subst r.
    rewrite (placeholder_update repr "Unknown" fs' eq_refl). reflexivity.
Qed.

(** Both passes test and act alike. *)
Lemma passes_agree (repr : value -> string) (last : value) (env : pass_env)
      (fs : filesys) :
  immediate_recognition repr last env fs = regular_poll repr last env fs.
Proof.
  unfold immediate_recognition, regular_poll.
  rewrite !with_temp_wav_run, tries_agree. reflexivity.
Qed.

(** A pass, case by case: the temp file, the [try] block, the cleanup. *)
Lemma regular_poll_run (repr : value -> string) (last : value) (env : pass_env)
      (fs : filesys) :
  regular_poll repr last env fs
  = if create_fails (wav env) then (Raise OSError, fs, [])
    else (if cleanup_fails env then Raise OSError
          else result_of (regular_try repr last env fs),
          files_of (regular_try repr last env fs),
          trace_of (regular_try repr last env fs)).
Proof. unfold regular_poll, cleanup_fails. apply with_temp_wav_run. Qed.

(** A pass that returns leaves [next_last] in [last_track]. *)
Lemma regular_try_returns (repr : value -> string) (last v : value) (env : pass_env)
      (fs : filesys) :
  result_of (regular_try repr last env fs) = Ok v -> v = next_last last env.
Proof.
  rewrite regular_try_run. unfold next_last.
  destruct (capture_ok (ffmpeg env)); [|cbn; congruence].
  destruct (client env) as [[]|e]; [|discriminate].
  cbv zeta.
  destruct (truthy (recognize (shazam env))); [|cbn; congruence].
  destruct (py_eq (recognize (shazam env)) last); [cbn; congruence|].
  cbn [result_of fst].
  destruct (result_of (handle_track repr (recognize (shazam env)) (cover env) fs));
    congruence.
Qed.

Lemma regular_poll_returns (repr : value -> string) (last v : value) (env : pass_env)
      (fs : filesys) :
  result_of (regular_poll repr last env fs) = Ok v -> v = next_last last env.
Proof.
  rewrite regular_poll_run.
  destruct (create_fails (wav env)); [discriminate|].
  destruct (cleanup_fails env); [discriminate|].
  cbn [result_of fst]. apply regular_try_returns.
Qed.

(* ===================================================================== *)
(** ** Results: one iteration of the loop *)
(* ===================================================================== *)

(** An iteration that finds no listener. *)
Lemma main_iter_idle (repr : value -> string) (s : loop_state) (env : cycle_env)
      (fs : filesys) (n : Z) :
  reading env = Ok n -> n < 1 ->
  main_iter repr s env fs
  = (Ok {| last_track := last_track s; prev_listeners := 0 |}, fs,
     EvStatsGet
     :: (if prev_listeners s >=? 1 then [placeholder "Paused"] else [])
     ++ [EvSleep 15]).
Proof.
  intros Hread Hn. unfold main_iter. run_io. rewrite Hread.
  apply Z.ltb_lt in Hn. rewrite Hn.
  destruct (prev_listeners s >=? 1); [|reflexivity].
  rewrite (placeholder_update repr "Paused" fs eq_refl). reflexivity.
Qed.

(** An iteration with listeners that follows one with listeners. *)
Lemma main_iter_steady (repr : value -> string) (s : loop_state) (env : cycle_env)
      (fs : filesys) (n : Z) :
  reading env = Ok n -> 1 <= n -> prev_listeners s <> 0 ->
  let out := regular_poll repr (last_track s) (regular env) fs in
  main_iter repr s env fs
  = match result_of out with
    | Ok last =>
        (Ok {| last_track := last; prev_listeners := n |}, files_of out,
         EvStatsGet :: trace_of out ++ [EvSleep POLL_INTERVAL])
    | Raise e => (Raise e, files_of out, EvStatsGet :: trace_of out)
    end.
Proof.
  intros Hread Hn Hprev out. subst out. unfold main_iter. run_io. rewrite Hread.
  replace (n <? 1) with false by (symmetry; apply Z.ltb_ge; lia).
  replace (prev_listeners s =? 0) with false by (symmetry; apply Z.eqb_neq; exact Hprev).
  cbn [andb].
  destruct (regular_poll repr (last_track s) (regular env) fs) as [[[last|e] fs'] tr];
    reflexivity.
Qed.

(** The iteration in which the first listener is found. *)
Lemma main_iter_activation (repr : value -> string) (s : loop_state)
      (env : cycle_env) (fs : filesys) (n : Z) :
  reading env = Ok n -> 1 <= n -> prev_listeners s = 0 ->
  let first := regular_poll repr (last_track s) (immediate env) fs in
  main_iter repr s env fs
  = match result_of first with
    | Raise e =>
        (Raise e, files_of first,
         EvStatsGet :: placeholder "Detecting..." :: EvSleep 5 :: trace_of first)
    | Ok last =>
        let second := regular_poll repr last (regular env) (files_of first) in
        match result_of second with
        | Ok last' =>
            (Ok {| last_track := last'; prev_listeners := n |}, files_of second,
             EvStatsGet :: placeholder "Detecting..." :: EvSleep 5
             :: trace_of first ++ trace_of second ++ [EvSleep POLL_INTERVAL])
        | Raise e =>
            (Raise e, files_of second,
             EvStatsGet :: placeholder "Detecting..." :: EvSleep 5
             :: trace_of first ++ trace_of second)
        end
    end.
Proof.
  intros Hread Hn Hprev first. subst first.
  unfold main_iter. run_io. rewrite Hread, Hprev.
  replace (n <? 1) with false by (symmetry; apply Z.ltb_ge; lia).
  replace (n >=? 1) with true by (symmetry; apply Z.geb_le; lia).
  cbn [Z.eqb andb].
  rewrite (placeholder_update repr "Detecting..." fs eq_refl).
  rewrite passes_agree.
  destruct (regular_poll repr (last_track s) (immediate env) fs)
    as [[[last|e] fs1] tr1]; [|reflexivity].
  cbv zeta. cbn [result_of files_of trace_of fst snd].
  destruct (regular_poll repr last (regular env) fs1) as [[[last'|e] fs2] tr2];
    cbn [result_of files_of trace_of fst snd app]; rewrite ?app_nil_r; reflexivity.
Qed.

Lemma main_loop_cons (repr : value -> string) (s s' : loop_state)
      (env : cycle_env) (rest : list cycle_env) (fs fs' : filesys) (tr : list event) :
  main_iter repr s env fs = (Ok s', fs', tr) ->
  main_loop repr s (env :: rest) fs
  = (result_of (main_loop repr s' rest fs'),
     files_of (main_loop repr s' rest fs'),
     tr ++ trace_of (main_loop repr s' rest fs')).
Proof.
  intros Hiter. cbn [main_loop]. unfold bind at 1. rewrite Hiter.
  destruct (main_loop repr s' rest fs') as [[r fs2] tr2]. reflexivity.
Qed.

Lemma main_loop_raise (repr : value -> string) (s : loop_state) (env : cycle_env)
      (rest : list cycle_env) (fs fs1 : filesys) (tr1 : list event) (e : exn) :
  main_iter repr s env fs = (Raise e, fs1, tr1) ->
  main_loop repr s (env :: rest) fs = (Raise e, fs1, tr1).
Proof. intros Hiter. cbn [main_loop]. unfold bind at 1. now rewrite Hiter. Qed.

(* ===================================================================== *)
(** ** Results: the idle edge *)
(* ===================================================================== *)

Lemma is_idle_reading (env : cycle_env) :
  is_idle env = true -> exists n, reading env = Ok n /\ n < 1.
Proof.
  unfold is_idle. destruct (reading env) as [n|e]; [|discriminate].
  intros H. exists n. split; [reflexivity|]. now apply Z.ltb_lt.
Qed.

(** Iterations without listeners, once the pause has been published, only
    probe and wait. *)
Lemma main_loop_stays_idle (repr : value -> string) (last : value)
      (envs : list cycle_env) :
  forall fs,
    forallb is_idle envs = true ->
    main_loop repr {| last_track := last; prev_listeners := 0 |} envs fs
    = (Ok {| last_track := last; prev_listeners := 0 |}, fs,
       flat_map (fun _ => [EvStatsGet; EvSleep 15]) envs).
Proof.
  induction envs as [|env rest IH]; intros fs Hidle; [reflexivity|].
  cbn [forallb] in Hidle. apply andb_true_iff in Hidle as [Henv Hrest].
  destruct (is_idle_reading _ Henv) as [n [Hread Hn]].
  pose proof (main_iter_idle repr {| last_track := last; prev_listeners := 0 |}
                env fs n Hread Hn) as Hiter.
  cbn [last_track prev_listeners] in Hiter.
  rewrite (main_loop_cons repr _ _ env rest fs fs _ Hiter).
  rewrite (IH fs Hrest). reflexivity.
Qed.

(** C5. When the listener count falls below 1 after an iteration that had
    listeners, the "Paused" placeholder (the artist alone, no title, no
    cover URL) is published in that iteration, and in no later iteration as
    long as the count stays below 1: over the whole idle stretch it is the
    only metadata update. *)
Theorem paused_published_once :
  forall (repr : value -> string) (s : loop_state) (env : cycle_env)
         (envs : list cycle_env) (fs : filesys),
    1 <= prev_listeners s ->
    forallb is_idle (env :: envs) = true ->
    let out := main_loop repr s (env :: envs) fs in
    result_of out = Ok {| last_track := last_track s; prev_listeners := 0 |}
    /\ trace_of out
       = [EvStatsGet; placeholder "Paused"; EvSleep 15]
         ++ flat_map (fun _ => [EvStatsGet; EvSleep 15]) envs
    /\ filter is_metadata (trace_of out) = [placeholder "Paused"].
Proof.
  intros repr s env envs fs Hprev Hidle out. subst out.
  cbn [forallb] in Hidle. apply andb_true_iff in Hidle as [Henv Hrest].
  destruct (is_idle_reading _ Henv) as [n [Hread Hn]].
  rewrite (main_loop_cons repr _ _ env envs fs fs _
             (main_iter_idle repr s env fs n Hread Hn)).
  rewrite (main_loop_stays_idle repr (last_track s) envs fs Hrest).
  replace (prev_listeners s >=? 1) with true by (symmetry; apply Z.geb_le; lia).
  cbn [result_of files_of trace_of fst snd app].
  split; [reflexivity|]. split; [reflexivity|].
  cbn [filter is_metadata placeholder].
  f_equal. clear. induction envs as [|e rest IH]; [reflexivity|exact IH].
Qed.

Lemma paused_published_once_witness :
  trace_of (main_loop sample_repr playing
              [cycle 0 deaf deaf; cycle 0 deaf deaf; cycle 0 deaf deaf] no_files)
  = [EvStatsGet;
     EvMetadata [("mount", "/stream.mp3"); ("mode", "updinfo"); ("song", "Paused")];
     EvSleep 15;
     EvStatsGet; EvSleep 15;
     EvStatsGet; EvSleep 15].
Proof.
  refine (proj1 (proj2 (paused_published_once sample_repr playing (cycle 0 deaf deaf)
                          [cycle 0 deaf deaf; cycle 0 deaf deaf] no_files _ _))).
  - cbn. lia.
  - reflexivity.
Defined.

(* ===================================================================== *)
(** ** Results: the activation edge *)
(* ===================================================================== *)

Lemma download_is_inner (tr : list event) :
  forallb is_download tr = true -> forallb is_inner tr = true.
Proof.
  induction tr as [|e tr IH]; [reflexivity|].
  cbn [forallb]. intros H. apply andb_true_iff in H as [He Htr].
  apply andb_true_iff. split; [|auto].
  destruct e; try discriminate He; reflexivity.
Qed.

Lemma handle_track_inner (repr : value -> string) (title artist album url : value)
      (env : cover_env) (fs : filesys) :
  forallb is_inner
          (trace_of (handle_track repr (make_track title artist album url) env fs))
  = true.
Proof.
  rewrite handle_track_run.
  pose proof (download_is_inner _ (download_cover_trace url env fs)) as Hdl.
  destruct (result_of (download_cover url env fs)); [|exact Hdl].
  destruct (has_surrogate (compose_song repr artist title)); [exact Hdl|].
  cbn [trace_of snd]. rewrite forallb_app, Hdl. reflexivity.
Qed.

(** A [try] block starts with its capture; what follows holds neither a
    capture nor a wait, is empty when the capture failed and starts with the
    recognition when the pass got to one. *)
Lemma regular_try_trace (repr : value -> string) (last : value) (env : pass_env)
      (fs : filesys) :
  exists rest,
    trace_of (regular_try repr last env fs) = EvCapture :: rest
    /\ forallb is_inner rest = true
    /\ (heard env = true -> exists rest', rest = EvRecognize :: rest')
    /\ (capture_ok (ffmpeg env) = false -> rest = []).
Proof.
  rewrite regular_try_run. unfold heard.
  destruct (capture_ok (ffmpeg env)).
  - destruct (client env) as [[]|e].
    + cbv zeta.
      destruct (truthy (recognize (shazam env))) eqn:Htrack.
      * destruct (py_eq (recognize (shazam env)) last).
        -- eexists. split; [reflexivity|]. split; [reflexivity|].
           split; [eauto|discriminate].
        -- destruct (recognize_truthy _ Htrack) as [t [a [al [c ->]]]].
           eexists. split; [reflexivity|]. split; [|split; [eauto|discriminate]].
           cbn [trace_of snd forallb is_inner is_capture is_sleep negb andb].
           apply handle_track_inner.
      * eexists. split; [reflexivity|]. split; [|split; [eauto|discriminate]].
        cbn [trace_of snd forallb is_inner is_capture is_sleep negb andb].
        rewrite forallb_app.
        destruct (clear_cover_trace (remove_fails env) fs) as [-> | ->]; reflexivity.
    + exists []. split; [reflexivity|]. split; [reflexivity|].
      split; [|discriminate]. rewrite andb_false_r. discriminate.
  - exists []. split; [reflexivity|]. split; [reflexivity|].
    split; [|reflexivity]. rewrite andb_false_r. discriminate.
Qed.

(** The trace of a pass whose temp file was created is the trace of its
    [try] block. *)
Lemma regular_poll_trace (repr : value -> string) (last : value) (env : pass_env)
      (fs : filesys) :
  create_fails (wav env) = false ->
  trace_of (regular_poll repr last env fs) = trace_of (regular_try repr last env fs).
Proof. intros Hwav. rewrite regular_poll_run, Hwav. reflexivity. Qed.

Lemma regular_poll_created (repr : value -> string) (last v : value) (env : pass_env)
      (fs : filesys) :
  result_of (regular_poll repr last env fs) = Ok v -> create_fails (wav env) = false.
Proof.
  rewrite regular_poll_run. destruct (create_fails (wav env)); [discriminate|reflexivity].
Qed.

(** The order of the activation iteration.  Whatever happens, it starts with
    the probe, the "Detecting..." placeholder and the 5-second wait, so the
    placeholder precedes every other update and the wait every capture.
    When the iteration completes, the two passes follow, each starting with
    its capture, and the wait of the poll interval ends it. *)
Lemma activation_order (repr : value -> string) (s : loop_state) (env : cycle_env)
      (fs : filesys) (n : Z) :
  reading env = Ok n -> 1 <= n -> prev_listeners s = 0 ->
  (exists rest,
      trace_of (main_iter repr s env fs)
      = EvStatsGet :: placeholder "Detecting..." :: EvSleep 5 :: rest)
  /\ (forall s',
      result_of (main_iter repr s env fs) = Ok s' ->
      exists first second,
        prev_listeners s' = n
        /\ trace_of (main_iter repr s env fs)
           = [EvStatsGet; placeholder "Detecting..."; EvSleep 5; EvCapture]
             ++ first ++ [EvCapture] ++ second ++ [EvSleep POLL_INTERVAL]
        /\ forallb is_inner first = true
        /\ forallb is_inner second = true
        /\ (heard (immediate env) = true -> exists rest, first = EvRecognize :: rest)
        /\ (capture_ok (ffmpeg (immediate env)) = false -> first = [])
        /\ (heard (regular env) = true -> exists rest, second = EvRecognize :: rest)
        /\ (capture_ok (ffmpeg (regular env)) = false -> second = [])).
Proof.
  intros Hread Hn Hprev.
  pose proof (main_iter_activation repr s env fs n Hread Hn Hprev) as Hrun.
  cbv zeta in Hrun. rewrite Hrun. clear Hrun.
  destruct (result_of (regular_poll repr (last_track s) (immediate env) fs))
    as [last|e] eqn:Hfirst.
  2: { split; [eexists; reflexivity|]. intros s' H. discriminate H. }
  destruct (result_of (regular_poll repr last (regular env)
                         (files_of (regular_poll repr (last_track s) (immediate env) fs))))
    as [last'|e] eqn:Hsecond.
  2: { split; [eexists; reflexivity|]. intros s' H. discriminate H. }
  split; [eexists; reflexivity|].
  intros s' Hres. cbn [result_of fst] in Hres. injection Hres as <-.
  rewrite (regular_poll_trace repr _ _ _ (regular_poll_created repr _ _ _ _ Hfirst)).
  rewrite (regular_poll_trace repr _ _ _ (regular_poll_created repr _ _ _ _ Hsecond)).
  destruct (regular_try_trace repr (last_track s) (immediate env) fs)
    as [first [Htr1 [Hin1 [Hok1 Hko1]]]].
  destruct (regular_try_trace repr last (regular env)
              (files_of (regular_poll repr (last_track s) (immediate env) fs)))
    as [second [Htr2 [Hin2 [Hok2 Hko2]]]].
  exists first, second. cbn [prev_listeners trace_of snd].
  split; [reflexivity|]. split.
  - rewrite Htr1, Htr2. reflexivity.
  - repeat split; assumption.
Qed.

(** C6. On the activation edge the "Detecting..." placeholder and the
    5-second wait come first, but the regular cycle does not always follow
    the immediate pass: when the immediate pass recognizes a track whose
    title holds a lone surrogate, the encoding of the metadata query raises
    outside any handler and the iteration ends after the recognition of the
    immediate pass, with one capture, no regular cycle and no wait. *)
Theorem activation_stops_on_unencodable_title :
  forall repr : value -> string,
    main_iter repr initial_state surrogate_start no_files
    = (Raise UnicodeEncodeError, no_files,
       [EvStatsGet; placeholder "Detecting..."; EvSleep 5; EvCapture; EvRecognize]).
Proof.
  intros repr.
  pose proof (main_iter_activation repr initial_state surrogate_start no_files 1
                eq_refl ltac:(lia) eq_refl) as Hrun.
  cbv zeta in Hrun. rewrite Hrun. clear Hrun.
  rewrite regular_poll_run, regular_try_run.
  change (recognize (shazam (immediate surrogate_start))) with surrogate_track.
  cbn [create_fails wav immediate surrogate_start cycle hears tidy_wav
       capture_ok ffmpeg good_run returncode output_size client].
  unfold surrogate_track at 1 2 3. 
  cbv zeta. rewrite handle_track_run. reflexivity.
Qed.

(** A first listener while "Echoes" plays: nothing is matched at once, the
    regular poll matches. *)
Example activation_run :
  trace_of (main_iter sample_repr initial_state
              (cycle 1 (hears no_match_response) (hears echoes_response)) no_files)
  = [EvStatsGet;
     EvMetadata [("mount", "/stream.mp3"); ("mode", "updinfo"); ("song", "Detecting...")];
     EvSleep 5;
     EvCapture; EvRecognize;
     EvMetadata [("mount", "/stream.mp3"); ("mode", "updinfo"); ("song", "Unknown")];
     EvCapture; EvRecognize;
     EvCoverGet (VStr "http://x/cover.jpg");
     EvTmpOpen; EvTmpWrite sample_image; EvTmpFlush; EvTmpFsync; EvReplace;
     EvMetadata [("mount", "/stream.mp3"); ("mode", "updinfo");
                 ("song", "Pink Floyd - Echoes");
                 ("url", "http://localhost:8000/cover.jpg")];
     EvSleep 30].
Proof. reflexivity. Qed.

(* ===================================================================== *)
(** ** Results: an unchanged track *)
(* ===================================================================== *)

Lemma heard_parts (env : pass_env) :
  heard env = true ->
  create_fails (wav env) = false
  /\ capture_ok (ffmpeg env) = true
  /\ client env = Ok tt.
Proof.
  unfold heard. intros H.
  apply andb_true_iff in H as [H Hclient]. apply andb_true_iff in H as [Hwav Hcap].
  split; [now destruct (create_fails (wav env))|]. split; [exact Hcap|].
  destruct (client env) as [[]|e]; [reflexivity|discriminate].
Qed.

Lemma unchanged_pass (repr : value -> string) (last : value) (env : pass_env)
      (fs : filesys) :
  heard env = true ->
  truthy (recognize (shazam env)) = true ->
  py_eq (recognize (shazam env)) last = true ->
  regular_poll repr last env fs
  = (if cleanup_fails env then Raise OSError else Ok last, fs,
     [EvCapture; EvRecognize]).
Proof.
  intros Hheard Htrack Heq.
  destruct (heard_parts env Hheard) as [Hwav [Hcap Hclient]].
  rewrite regular_poll_run, Hwav, regular_try_run, Hcap, Hclient. cbv zeta.
  rewrite Htrack, Heq. reflexivity.
Qed.

(** After a pass that recognized a track, [last_track] is equal to every
    value the track is equal to. *)
Lemma next_last_equal (last track : value) (env : pass_env) :
  capture_ok (ffmpeg env) = true ->
  truthy (recognize (shazam env)) = true ->
  py_eq track (recognize (shazam env)) = true ->
  py_eq track (next_last last env) = true.
Proof.
  intros Hcap Htrack Heq. unfold next_last. rewrite Hcap, Htrack.
  destruct (py_eq (recognize (shazam env)) last) eqn:Hlast; [|exact Heq].
  exact (py_eq_trans _ _ _ Heq Hlast).
Qed.

Lemma equal_to_track_truthy (reply reply' : result value) :
  truthy (recognize reply) = true ->
  py_eq (recognize reply') (recognize reply) = true ->
  truthy (recognize reply') = true.
Proof.
  intros Htrack Heq.
  destruct (recognize_truthy _ Htrack) as [t [a [al [c Ht]]]].
  destruct (recognize_shape reply') as [Hempty|[t' [a' [al' [c' Ht']]]]].
  - rewrite Hempty, Ht in Heq. discriminate Heq.
  - rewrite Ht'. reflexivity.
Qed.

(** What a completed iteration with listeners leaves in the loop state. *)
Lemma main_iter_active_state (repr : value -> string) (s s' : loop_state)
      (env : cycle_env) (fs : filesys) (n : Z) :
  reading env = Ok n -> 1 <= n ->
  result_of (main_iter repr s env fs) = Ok s' ->
  prev_listeners s' = n
  /\ exists last, last_track s' = next_last last (regular env)
                  /\ (prev_listeners s <> 0 -> last = last_track s)
                  /\ (prev_listeners s = 0 ->
                      last = next_last (last_track s) (immediate env)).
Proof.
  intros Hread Hn Hres.
  destruct (Z.eq_dec (prev_listeners s) 0) as [Hprev|Hprev].
  - pose proof (main_iter_activation repr s env fs n Hread Hn Hprev) as Hrun.
    cbv zeta in Hrun. rewrite Hrun in Hres. clear Hrun.
    destruct (result_of (regular_poll repr (last_track s) (immediate env) fs))
      as [last|e] eqn:Hfirst; [|discriminate Hres].
    destruct (result_of (regular_poll repr last (regular env)
                           (files_of (regular_poll repr (last_track s)
                                        (immediate env) fs))))
      as [last'|e] eqn:Hsecond; [|discriminate Hres].
    injection Hres as <-. cbn [last_track prev_listeners].
    split; [reflexivity|]. exists last.
    split; [exact (regular_poll_returns repr _ _ _ _ Hsecond)|].
    split; [contradiction|].
    intros _. exact (regular_poll_returns repr _ _ _ _ Hfirst).
  - pose proof (main_iter_steady repr s env fs n Hread Hn Hprev) as Hrun.
    cbv zeta in Hrun. rewrite Hrun in Hres. clear Hrun.
    destruct (result_of (regular_poll repr (last_track s) (regular env) fs))
      as [last'|e] eqn:Hpoll; [|discriminate Hres].
    injection Hres as <-. cbn [last_track prev_listeners].
    split; [reflexivity|]. exists (last_track s).
    split; [exact (regular_poll_returns repr _ _ _ _ Hpoll)|].
    split; [reflexivity|contradiction].
Qed.

(** C3. Two tracks are equal exactly when their titles, artists, albums and
    covers are, field by field (for str fields: when the four strings are
    the same).  When a pass recognizes a non-empty track equal to the stored
    last track it publishes nothing and downloads nothing: the pass consists
    of the capture and the recognition, the files stay as they were and so
    does the stored track; an iteration with listeners that follows one with
    listeners is then the probe, the capture, the recognition and the wait.
    When the regular polls of two consecutive iterations recognize equal
    tracks, the second iteration publishes nothing.  (A pass ends by
    removing its temp file; when that removal raises, the iteration ends
    there, after the same events, with nothing published either.) *)
Theorem same_track_not_republished :
  (forall t a al c t' a' al' c' : value,
      py_eq (make_track t a al c) (make_track t' a' al' c')
      = py_eq t t' && py_eq a a' && py_eq al al' && py_eq c c')
  /\ (forall t a al c t' a' al' c' : string,
      py_eq (make_track (VStr t) (VStr a) (VStr al) (VStr c))
            (make_track (VStr t') (VStr a') (VStr al') (VStr c')) = true
      <-> (t = t' /\ a = a' /\ al = al' /\ c = c'))
  /\ (forall (repr : value -> string) (last : value) (env : pass_env) (fs : filesys),
      heard env = true ->
      truthy (recognize (shazam env)) = true ->
      py_eq (recognize (shazam env)) last = true ->
      regular_poll repr last env fs
      = (if cleanup_fails env then Raise OSError else Ok last, fs,
         [EvCapture; EvRecognize])
      /\ immediate_recognition repr last env fs
         = (if cleanup_fails env then Raise OSError else Ok last, fs,
            [EvCapture; EvRecognize]))
  /\ (forall (repr : value -> string) (s : loop_state) (env : cycle_env)
             (fs : filesys) (n : Z),
      reading env = Ok n -> 1 <= n -> prev_listeners s <> 0 ->
      heard (regular env) = true ->
      truthy (recognize (shazam (regular env))) = true ->
      py_eq (recognize (shazam (regular env))) (last_track s) = true ->
      main_iter repr s env fs
      = if cleanup_fails (regular env)
        then (Raise OSError, fs, [EvStatsGet; EvCapture; EvRecognize])
        else (Ok {| last_track := last_track s; prev_listeners := n |}, fs,
              [EvStatsGet; EvCapture; EvRecognize; EvSleep POLL_INTERVAL]))
  /\ (forall (repr : value -> string) (s s1 : loop_state) (env1 env2 : cycle_env)
             (fs : filesys) (n1 n2 : Z),
      reading env1 = Ok n1 -> 1 <= n1 ->
      reading env2 = Ok n2 -> 1 <= n2 ->
      result_of (main_iter repr s env1 fs) = Ok s1 ->
      heard (regular env1) = true ->
      heard (regular env2) = true ->
      truthy (recognize (shazam (regular env1))) = true ->
      py_eq (recognize (shazam (regular env2)))
            (recognize (shazam (regular env1))) = true ->
      main_iter repr s1 env2 (files_of (main_iter repr s env1 fs))
      = if cleanup_fails (regular env2)
        then (Raise OSError, files_of (main_iter repr s env1 fs),
              [EvStatsGet; EvCapture; EvRecognize])
        else (Ok {| last_track := last_track s1; prev_listeners := n2 |},
              files_of (main_iter repr s env1 fs),
              [EvStatsGet; EvCapture; EvRecognize; EvSleep POLL_INTERVAL])).
Proof.
  split; [exact py_eq_tracks|].
  split.
  { intros t a al c t' a' al' c'. rewrite py_eq_tracks. cbn [py_eq].
    rewrite !andb_true_iff, !String.eqb_eq. tauto. }
  split.
  { intros repr last env fs Hheard Htrack Heq.
    rewrite passes_agree. split; apply unchanged_pass; assumption. }
  assert (Hsteady :
    forall (repr : value -> string) (s : loop_state) (env : cycle_env)
           (fs : filesys) (n : Z),
      reading env = Ok n -> 1 <= n -> prev_listeners s <> 0 ->
      heard (regular env) = true ->
      truthy (recognize (shazam (regular env))) = true ->
      py_eq (recognize (shazam (regular env))) (last_track s) = true ->
      main_iter repr s env fs
      = if cleanup_fails (regular env)
        then (Raise OSError, fs, [EvStatsGet; EvCapture; EvRecognize])
        else (Ok {| last_track := last_track s; prev_listeners := n |}, fs,
              [EvStatsGet; EvCapture; EvRecognize; EvSleep POLL_INTERVAL])).
  { intros repr s env fs n Hread Hn Hprev Hheard Htrack Heq.
    pose proof (main_iter_steady repr s env fs n Hread Hn Hprev) as Hrun.
    cbv zeta in Hrun. rewrite Hrun. clear Hrun.
    rewrite (unchanged_pass repr _ _ fs Hheard Htrack Heq).
    destruct (cleanup_fails (regular env)); reflexivity. }
  split; [exact Hsteady|].
  intros repr s s1 env1 env2 fs n1 n2 Hread1 Hn1 Hread2 Hn2 Hres Hheard1 Hheard2
         Htrack1 Heq.
  pose proof (equal_to_track_truthy _ _ Htrack1 Heq) as Htrack2.
  destruct (main_iter_active_state repr s s1 env1 fs n1 Hread1 Hn1 Hres)
    as [Hprev1 [last [Hlast _]]].
  apply Hsteady; try assumption; [lia|].
  rewrite Hlast. apply next_last_equal; try assumption.
  exact (proj1 (proj2 (heard_parts _ Hheard1))).
Qed.

Lemma same_track_not_republished_witness :
  (py_eq echoes echoes = true <->
   ("Echoes" = "Echoes" /\ "Pink Floyd" = "Pink Floyd" /\ "Meddle" = "Meddle"
    /\ "http://x/cover.jpg" = "http://x/cover.jpg"))
  /\ regular_poll sample_repr echoes (hears echoes_response) no_files
     = (Ok echoes, no_files, [EvCapture; EvRecognize])
  /\ main_iter sample_repr playing steady_echoes no_files
     = (Ok {| last_track := last_track playing; prev_listeners := 2 |}, no_files,
        [EvStatsGet; EvCapture; EvRecognize; EvSleep POLL_INTERVAL])
  /\ main_iter sample_repr {| last_track := echoes; prev_listeners := 1 |} steady_echoes
       (files_of (main_iter sample_repr initial_state first_listener no_files))
     = (Ok {| last_track := echoes; prev_listeners := 2 |},
        files_of (main_iter sample_repr initial_state first_listener no_files),
        [EvStatsGet; EvCapture; EvRecognize; EvSleep POLL_INTERVAL]).
Proof.
  destruct same_track_not_republished as [_ [Hstr [Hpass [Hsteady Htwice]]]].
  split; [apply Hstr|]. split; [|split].
  - apply (Hpass sample_repr echoes (hears echoes_response) no_files); reflexivity.
  - apply (Hsteady sample_repr playing steady_echoes no_files 2);
      try reflexivity; cbn; lia.
  - apply (Htwice sample_repr initial_state
             {| last_track := echoes; prev_listeners := 1 |}
             first_listener steady_echoes no_files 1 2);
      try reflexivity; lia.
Defined.

(* ===================================================================== *)
(** ** Results: no match *)
(* ===================================================================== *)

Lemma no_match_pass (repr : value -> string) (last : value) (env : pass_env)
      (fs : filesys) :
  heard env = true ->
  truthy (recognize (shazam env)) = false ->
  regular_poll repr last env fs
  = (if cleanup_fails env then Raise OSError else Ok VNone,
     files_of (clear_cover (remove_fails env) fs),
     EvCapture :: EvRecognize
     :: trace_of (clear_cover (remove_fails env) fs) ++ [placeholder "Unknown"]).
Proof.
  intros Hheard Htrack.
  destruct (heard_parts env Hheard) as [Hwav [Hcap Hclient]].
  rewrite regular_poll_run, Hwav, regular_try_run, Hcap, Hclient. cbv zeta.
  rewrite Htrack. reflexivity.
Qed.

Lemma new_track_pass (repr : value -> string) (last : value) (env : pass_env)
      (fs : filesys) (title artist album url : value) :
  heard env = true ->
  recognize (shazam env) = make_track title artist album url ->
  py_eq (recognize (shazam env)) last = false ->
  let out := handle_track repr (make_track title artist album url) (cover env) fs in
  regular_poll repr last env fs
  = (if cleanup_fails env then Raise OSError
     else match result_of out with
          | Ok _ => Ok (make_track title artist album url)
          | Raise e => Raise e
          end,
     files_of out, EvCapture :: EvRecognize :: trace_of out).
Proof.
  intros Hheard Htrack Hneq out. subst out.
  destruct (heard_parts env Hheard) as [Hwav [Hcap Hclient]].
  rewrite regular_poll_run, Hwav, regular_try_run, Hcap, Hclient. cbv zeta.
  rewrite Hneq, Htrack. reflexivity.
Qed.

Lemma clear_cover_clears (fs : filesys) :
  cover_file (files_of (clear_cover false fs)) = None.
Proof. rewrite clear_cover_run. destruct fs as [[c|] t]; reflexivity. Qed.

(** What an empty recognition does: the pass clears the cover (the file is
    gone afterwards unless its removal fails), publishes the "Unknown"
    placeholder and, when it completes, yields an unset last track. *)
Lemma no_match_clears_and_resets (repr : value -> string) (last : value)
      (env : pass_env) (fs : filesys) :
  heard env = true ->
  truthy (recognize (shazam env)) = false ->
  let cleared := clear_cover (remove_fails env) fs in
  regular_poll repr last env fs
  = (if cleanup_fails env then Raise OSError else Ok VNone, files_of cleared,
     EvCapture :: EvRecognize :: trace_of cleared ++ [placeholder "Unknown"])
  /\ immediate_recognition repr last env fs = regular_poll repr last env fs
  /\ (trace_of cleared = [] \/ trace_of cleared = [EvCoverRemove])
  /\ (remove_fails env = false -> cover_file (files_of cleared) = None).
Proof.
  intros Hheard Htrack cleared. subst cleared.
  rewrite (no_match_pass repr last env fs Hheard Htrack).
  split; [reflexivity|]. split.
  - rewrite passes_agree. apply no_match_pass; assumption.
  - split; [apply clear_cover_trace|]. intros ->. apply clear_cover_clears.
Qed.

(** From an unset [last_track] a non-empty recognition is handled as new:
    [handle_track] runs on it, and when [handle_track] returns the track is
    published by one metadata update and stored. *)
Lemma match_after_gap_handled (repr : value -> string) (env : pass_env)
      (fs : filesys) (title artist album url : value) :
  heard env = true ->
  recognize (shazam env) = make_track title artist album url ->
  let out := handle_track repr (make_track title artist album url) (cover env) fs in
  trace_of (regular_poll repr VNone env fs) = EvCapture :: EvRecognize :: trace_of out
  /\ (cleanup_stuck url (cover env) fs = false ->
      has_surrogate (compose_song repr artist title) = false ->
      result_of (regular_poll repr VNone env fs)
      = (if cleanup_fails env then Raise OSError
         else Ok (make_track title artist album url))
      /\ filter is_metadata (trace_of (regular_poll repr VNone env fs))
         = [EvMetadata (metadata_params repr artist title
                          (if downloaded url (cover env) fs
                           then COVER_PUBLIC_URL else ""))]).
Proof.
  intros Hheard Htrack out. subst out.
  assert (Hneq : py_eq (recognize (shazam env)) VNone = false)
    by (rewrite Htrack; reflexivity).
  pose proof (new_track_pass repr VNone env fs title artist album url
                Hheard Htrack Hneq) as Hrun.
  cbv zeta in Hrun. rewrite Hrun. clear Hrun.
  split; [reflexivity|].
  intros Hstuck Hsong. rewrite handle_track_run, Hsong.
  pose proof (download_cover_result url (cover env) fs) as Hres.
  rewrite Hstuck in Hres. destruct Hres as [ok Hok]. rewrite Hok.
  cbn [result_of files_of trace_of fst snd filter is_metadata].
  split; [reflexivity|].
  rewrite filter_app, (filter_metadata_download _ (download_cover_trace _ _ _)).
  reflexivity.
Qed.

(** C4. After a no-match, which clears the cover, publishes "Unknown" and
    unsets the last track, a later match is handled as new but not always
    republished: when its title holds a lone surrogate the encoding of the
    metadata query raises outside any handler, no update is issued for the
    track and the loop ends.  Over the two iterations the only metadata
    update is the "Unknown" placeholder. *)
Theorem match_after_gap_not_republished :
  forall repr : value -> string,
    main_loop repr playing [steady_no_match; surrogate_steady] with_cover
    = (Raise UnicodeEncodeError, {| cover_file := None; tmp_file := None |},
       [EvStatsGet; EvCapture; EvRecognize; EvCoverRemove; placeholder "Unknown";
        EvSleep POLL_INTERVAL;
        EvStatsGet; EvCapture; EvRecognize]).
Proof.
  intros repr.
  assert (Hfirst : main_iter repr playing steady_no_match with_cover
                   = (Ok {| last_track := VNone; prev_listeners := 2 |},
                      {| cover_file := None; tmp_file := None |},
                      [EvStatsGet; EvCapture; EvRecognize; EvCoverRemove;
                       placeholder "Unknown"; EvSleep POLL_INTERVAL])).
  { pose proof (main_iter_steady repr playing steady_no_match with_cover 2
                  eq_refl ltac:(lia) ltac:(discriminate)) as Hrun.
    cbv zeta in Hrun. rewrite Hrun. clear Hrun.
    rewrite (no_match_pass repr _ (regular steady_no_match) with_cover eq_refl eq_refl).
    reflexivity. }
  rewrite (main_loop_cons repr _ _ _ _ _ _ _ Hfirst).
  assert (Hsecond : main_iter repr {| last_track := VNone; prev_listeners := 2 |}
                      surrogate_steady {| cover_file := None; tmp_file := None |}
                    = (Raise UnicodeEncodeError,
                       {| cover_file := None; tmp_file := None |},
                       [EvStatsGet; EvCapture; EvRecognize])).
  { pose proof (main_iter_steady repr {| last_track := VNone; prev_listeners := 2 |}
                  surrogate_steady {| cover_file := None; tmp_file := None |} 2
                  eq_refl ltac:(lia) ltac:(discriminate)) as Hrun.
    cbv zeta in Hrun. rewrite Hrun. clear Hrun.
    pose proof (new_track_pass repr VNone (regular surrogate_steady)
                  {| cover_file := None; tmp_file := None |}
                  (VStr lone_surrogate) (VStr "Pink Floyd") (VStr "Unknown") (VStr "")
                  eq_refl eq_refl eq_refl) as Hpass.
    cbv zeta in Hpass. cbn [last_track]. rewrite Hpass. clear Hpass.
    rewrite handle_track_run. reflexivity. }
  rewrite (main_loop_raise repr _ _ _ _ _ _ _ Hsecond). reflexivity.
Qed.

(* ===================================================================== *)
(** ** Results: what [last_track] holds *)
(* ===================================================================== *)

(** A listener count that is not a number ends the loop. *)
Lemma main_iter_crash (repr : value -> string) (s : loop_state) (env : cycle_env)
      (fs : filesys) (e : exn) :
  reading env = Raise e -> main_iter repr s env fs = (Raise e, fs, [EvStatsGet]).
Proof. intros Hread. unfold main_iter. run_io. rewrite Hread. reflexivity. Qed.

Lemma next_last_cases (last : value) (env : pass_env) :
  next_last last env = last
  \/ next_last last env = VNone
  \/ (truthy (next_last last env) = true
      /\ next_last last env = recognize (shazam env)).
Proof.
  unfold next_last.
  destruct (capture_ok (ffmpeg env)); [|now left].
  destruct (truthy (recognize (shazam env))) eqn:Htrack; [|now (right; left)].
  destruct (py_eq (recognize (shazam env)) last); [now left|].
  right; right. auto.
Qed.

(** What an iteration leaves in [last_track]: what it found there, nothing,
    or a non-empty recognition result of its own. *)
Lemma main_iter_last_track (repr : value -> string) (s s' : loop_state)
      (env : cycle_env) (fs : filesys) :
  result_of (main_iter repr s env fs) = Ok s' ->
  last_track s' = last_track s
  \/ last_track s' = VNone
  \/ (truthy (last_track s') = true /\ In (last_track s') (recognitions [env])).
Proof.
  intros Hres.
  destruct (reading env) as [n|e] eqn:Hread.
  2: { rewrite (main_iter_crash repr s env fs e Hread) in Hres. discriminate Hres. }
  destruct (Z.lt_ge_cases n 1) as [Hn|Hn].
  { rewrite (main_iter_idle repr s env fs n Hread Hn) in Hres.
    injection Hres as <-. now left. }
  destruct (main_iter_active_state repr s s' env fs n Hread Hn Hres)
    as [_ [last [Hlast [Hsteady Hactivation]]]].
  rewrite Hlast.
  destruct (next_last_cases last (regular env)) as [H|[H|[Ht H]]].
  - rewrite H.
    destruct (Z.eq_dec (prev_listeners s) 0) as [Hprev|Hprev].
    + rewrite (Hactivation Hprev).
      destruct (next_last_cases (last_track s) (immediate env)) as [H1|[H1|[Ht1 H1]]];
        auto.
      right; right. split; [exact Ht1|]. rewrite H1. cbn. auto.
    + rewrite (Hsteady Hprev). now left.
  - now (right; left).
  - right; right. split; [exact Ht|]. rewrite H. cbn. auto.
Qed.

Lemma main_loop_step (repr : value -> string) (s s2 : loop_state)
      (env : cycle_env) (rest : list cycle_env) (fs : filesys) :
  result_of (main_loop repr s (env :: rest) fs) = Ok s2 ->
  exists s1,
    result_of (main_iter repr s env fs) = Ok s1
    /\ result_of (main_loop repr s1 rest (files_of (main_iter repr s env fs))) = Ok s2.
Proof.
  cbn [main_loop]. unfold bind at 1.
  destruct (main_iter repr s env fs) as [[[s1|e] fs1] tr1];
    cbn [result_of files_of fst snd].
  - intros Hrest. exists s1. split; [reflexivity|].
    destruct (main_loop repr s1 rest fs1) as [[r fs2] tr2]. exact Hrest.
  - discriminate.
Qed.

Lemma main_loop_last_track (repr : value -> string) (envs : list cycle_env) :
  forall (s s' : loop_state) (fs : filesys),
    result_of (main_loop repr s envs fs) = Ok s' ->
    last_track s' = last_track s
    \/ last_track s' = VNone
    \/ (truthy (last_track s') = true /\ In (last_track s') (recognitions envs)).
Proof.
  induction envs as [|env rest IH]; intros s s' fs Hres.
  - cbn in Hres. injection Hres as <-. now left.
  - destruct (main_loop_step repr s s' env rest fs Hres) as [s1 [Hiter Hrest]].
    assert (Hsplit : forall v, In v (recognitions [env]) \/ In v (recognitions rest) ->
                               In v (recognitions (env :: rest))).
    { intros v. unfold recognitions. cbn [flat_map]. rewrite app_nil_r.
      intros H. apply in_or_app. exact H. }
    destruct (IH _ _ _ Hrest) as [H|[H|[Ht H]]].
    + rewrite H.
      destruct (main_iter_last_track repr s s1 env fs Hiter) as [H1|[H1|[Ht1 H1]]].
      * now left.
      * now (right; left).
      * right; right. split; [exact Ht1|]. apply Hsplit. now left.
    + now (right; left).
    + right; right. split; [exact Ht|]. apply Hsplit. now right.
Qed.

(** A completed pass whose capture succeeded got to its recognition. *)
Lemma returned_pass_heard (repr : value -> string) (last v : value) (env : pass_env)
      (fs : filesys) :
  result_of (regular_poll repr last env fs) = Ok v ->
  capture_ok (ffmpeg env) = true ->
  heard env = true /\ cleanup_fails env = false.
Proof.
  rewrite regular_poll_run. unfold heard.
  destruct (create_fails (wav env)); [discriminate|].
  destruct (cleanup_fails env); [discriminate|].
  cbn [result_of fst negb andb]. rewrite regular_try_run.
  intros Hres Hcap. rewrite Hcap in *.
  destruct (client env) as [[]|e]; [auto|discriminate Hres].
Qed.

(** C10. Along every run of the loop from its start, [last_track] is unset
    or a four-field track that a recognition of the run returned (a
    non-empty result); each iteration leaves in it what it found, nothing,
    or a non-empty recognition result of its own.  Publishing a placeholder
    stores nothing: the "Paused" iteration and a "Detecting..." iteration
    whose captures fail keep [last_track] as it was, and the pass that
    publishes "Unknown" unsets it.  Hence, in an iteration that completes, a
    recognized track goes unpublished only when it equals a track recognized
    earlier in the run. *)
Theorem last_track_holds_recognitions :
  (forall (repr : value -> string) (envs : list cycle_env) (fs : filesys)
          (s : loop_state),
      result_of (main repr envs fs) = Ok s ->
      last_track s = VNone
      \/ (In (last_track s) (recognitions envs)
          /\ exists title artist album url,
              last_track s = make_track title artist album url))
  /\ (forall (repr : value -> string) (s s' : loop_state) (env : cycle_env)
             (fs : filesys),
      result_of (main_iter repr s env fs) = Ok s' ->
      last_track s' = last_track s
      \/ last_track s' = VNone
      \/ (truthy (last_track s') = true /\ In (last_track s') (recognitions [env])))
  /\ (forall (repr : value -> string) (s : loop_state) (env : cycle_env)
             (fs : filesys),
      is_idle env = true ->
      result_of (main_iter repr s env fs)
      = Ok {| last_track := last_track s; prev_listeners := 0 |})
  /\ (forall (repr : value -> string) (s : loop_state) (env : cycle_env)
             (fs : filesys) (n : Z),
      reading env = Ok n -> 1 <= n -> prev_listeners s = 0 ->
      capture_ok (ffmpeg (immediate env)) = false ->
      capture_ok (ffmpeg (regular env)) = false ->
      (forall s', result_of (main_iter repr s env fs) = Ok s' ->
                  last_track s' = last_track s)
      /\ (create_fails (wav (immediate env)) = false ->
          cleanup_fails (immediate env) = false ->
          create_fails (wav (regular env)) = false ->
          cleanup_fails (regular env) = false ->
          main_iter repr s env fs
          = (Ok {| last_track := last_track s; prev_listeners := n |}, fs,
             [EvStatsGet; placeholder "Detecting..."; EvSleep 5; EvCapture; EvCapture;
              EvSleep POLL_INTERVAL])))
  /\ (forall (repr : value -> string) (last : value) (env : pass_env) (fs : filesys),
      heard env = true ->
      truthy (recognize (shazam env)) = false ->
      result_of (regular_poll repr last env fs)
      = (if cleanup_fails env then Raise OSError else Ok VNone)
      /\ result_of (immediate_recognition repr last env fs)
         = (if cleanup_fails env then Raise OSError else Ok VNone))
  /\ (forall (repr : value -> string) (envs : list cycle_env) (fs0 : filesys)
             (s s' : loop_state) (env : cycle_env) (fs : filesys) (n : Z),
      result_of (main repr envs fs0) = Ok s ->
      reading env = Ok n -> 1 <= n -> prev_listeners s <> 0 ->
      capture_ok (ffmpeg (regular env)) = true ->
      truthy (recognize (shazam (regular env))) = true ->
      result_of (main_iter repr s env fs) = Ok s' ->
      filter is_metadata (trace_of (main_iter repr s env fs)) = [] ->
      py_eq (recognize (shazam (regular env))) (last_track s) = true
      /\ In (last_track s) (recognitions envs)).
Proof.
  assert (Hrun :
    forall (repr : value -> string) (envs : list cycle_env) (fs : filesys)
           (s : loop_state),
      result_of (main repr envs fs) = Ok s ->
      last_track s = VNone
      \/ (In (last_track s) (recognitions envs)
          /\ exists title artist album url,
              last_track s = make_track title artist album url)).
  { intros repr envs fs s Hres. unfold main in Hres.
    destruct (main_loop_last_track repr envs _ _ _ Hres) as [H|[H|[Ht H]]].
    - left. rewrite H. reflexivity.
    - now left.
    - right. split; [exact H|].
      unfold recognitions in H. apply in_flat_map in H as [env [_ Hin]].
      cbn in Hin. destruct Hin as [Hin|[Hin|[]]]; rewrite <- Hin in Ht |- *;
        apply recognize_truthy; exact Ht. }
  split; [exact Hrun|].
  split; [exact main_iter_last_track|].
  split.
  { intros repr s env fs Hidle.
    destruct (is_idle_reading _ Hidle) as [n [Hread Hn]].
    rewrite (main_iter_idle repr s env fs n Hread Hn). reflexivity. }
  split.
  { intros repr s env fs n Hread Hn Hprev Hcap1 Hcap2. split.
    - intros s' Hres.
      destruct (main_iter_active_state repr s s' env fs n Hread Hn Hres)
        as [_ [last [Hlast [_ Hactivation]]]].
      rewrite Hlast, (Hactivation Hprev). unfold next_last.
      rewrite Hcap1, Hcap2. reflexivity.
    - intros Hwav1 Hclean1 Hwav2 Hclean2.
      pose proof (main_iter_activation repr s env fs n Hread Hn Hprev) as Hiter.
      cbv zeta in Hiter. rewrite Hiter. clear Hiter.
      rewrite !regular_poll_run, Hwav1, Hclean1, !regular_try_run, Hcap1.
      cbn [result_of files_of trace_of fst snd].
      rewrite !regular_poll_run, Hwav2, Hclean2, !regular_try_run, Hcap2.
      reflexivity. }
  split.
  { intros repr last env fs Hheard Htrack.
    rewrite passes_agree, (no_match_pass repr last env fs Hheard Htrack).
    split; reflexivity. }
  intros repr envs fs0 s s' env fs n Hres Hread Hn Hprev Hcap Htrack Hdone Hquiet.
  assert (Heq : py_eq (recognize (shazam (regular env))) (last_track s) = true).
  { destruct (py_eq (recognize (shazam (regular env))) (last_track s)) eqn:Heq;
      [reflexivity|].
    destruct (recognize_truthy _ Htrack) as [t [a [al [c Ht]]]].
    pose proof (main_iter_steady repr s env fs n Hread Hn Hprev) as Hrun'.
    cbv zeta in Hrun'. rewrite Hrun' in Hdone, Hquiet. clear Hrun'.
    destruct (result_of (regular_poll repr (last_track s) (regular env) fs))
      as [last'|e] eqn:Hpoll; [|discriminate Hdone].
    destruct (returned_pass_heard repr _ _ _ _ Hpoll Hcap) as [Hheard Hclean].
    pose proof (new_track_pass repr (last_track s) (regular env) fs t a al c
                  Hheard Ht Heq) as Hpass.
    cbv zeta in Hpass. rewrite Hpass in Hpoll, Hquiet. clear Hpass.
    rewrite Hclean in Hpoll. cbn [result_of fst] in Hpoll.
    rewrite handle_track_run in Hpoll, Hquiet.
    destruct (result_of (download_cover c (cover (regular env)) fs));
      [|discriminate Hpoll].
    destruct (has_surrogate (compose_song repr a t)); [discriminate Hpoll|].
    cbn [trace_of snd app filter is_metadata] in Hquiet.
    rewrite !filter_app in Hquiet.
    rewrite (filter_metadata_download _ (download_cover_trace _ _ _)) in Hquiet.
    cbn [app filter is_metadata] in Hquiet.
    discriminate Hquiet. }
  split; [exact Heq|].
  destruct (Hrun repr envs fs0 s Hres) as [Hnone|[Hin _]]; [|exact Hin].
  destruct (recognize_truthy _ Htrack) as [t [a [al [c Ht]]]].
  rewrite Hnone, Ht in Heq. discriminate Heq.
Qed.

Lemma last_track_holds_recognitions_witness :
  (last_track {| last_track := echoes; prev_listeners := 2 |} = VNone
   \/ (In (last_track {| last_track := echoes; prev_listeners := 2 |})
          (recognitions [first_listener; steady_echoes])
       /\ exists title artist album url,
           last_track {| last_track := echoes; prev_listeners := 2 |}
           = make_track title artist album url))
  /\ result_of (main_iter sample_repr playing (cycle 0 deaf deaf) no_files)
     = Ok {| last_track := echoes; prev_listeners := 0 |}
  /\ main_iter sample_repr initial_state silent_start no_files
     = (Ok {| last_track := VNone; prev_listeners := 1 |}, no_files,
        [EvStatsGet; placeholder "Detecting..."; EvSleep 5; EvCapture; EvCapture;
         EvSleep POLL_INTERVAL])
  /\ result_of (regular_poll sample_repr echoes (hears no_match_response) with_cover)
     = Ok VNone
  /\ (py_eq (recognize (shazam (regular steady_echoes)))
            (last_track {| last_track := echoes; prev_listeners := 2 |}) = true
      /\ In (last_track {| last_track := echoes; prev_listeners := 2 |})
            (recognitions [first_listener; steady_echoes])).
Proof.
  destruct last_track_holds_recognitions
    as [Hrun [_ [Hpaused [Hdetecting [Hunknown Hquiet]]]]].
  split; [|split; [|split; [|split]]].
  - apply (Hrun sample_repr [first_listener; steady_echoes] no_files). reflexivity.
  - apply (Hpaused sample_repr playing (cycle 0 deaf deaf) no_files). reflexivity.
  - apply (Hdetecting sample_repr initial_state silent_start no_files 1);
      try reflexivity; lia.
  - apply (Hunknown sample_repr echoes (hears no_match_response) with_cover);
      reflexivity.
  - apply (Hquiet sample_repr [first_listener; steady_echoes] no_files
             {| last_track := echoes; prev_listeners := 2 |}
             {| last_track := echoes; prev_listeners := 2 |} steady_echoes
             (files_of (main sample_repr [first_listener; steady_echoes] no_files)) 2);
      try reflexivity; cbn; lia.
Defined.

(* ===================================================================== *)
(** ** Further results: the collaborators *)
(* ===================================================================== *)

(** X1. A capture counts as successful exactly when ffmpeg ran to its end
    with return code 0 and the output file has a positive size; a timeout or
    any other exception of the run, a non-zero return code, an empty output
    and an output whose size cannot be read all give [False].  The capture
    itself touches neither cover file. *)
Theorem capture_succeeds_iff :
  forall (run : result ffmpeg_run) (fs : filesys),
    capture_audio run fs = (Ok (capture_ok run), fs, [EvCapture])
    /\ (capture_ok run = true
        <-> exists r n, run = Ok r /\ returncode r = 0
                        /\ output_size r = Ok n /\ 0 < n).
Proof.
  intros run fs. split; [reflexivity|].
  unfold capture_ok. split.
  - destruct run as [r|e]; [|discriminate].
    destruct (Z.eqb_spec (returncode r) 0) as [Hrc|Hrc]; [|discriminate].
    destruct (output_size r) as [n|e] eqn:Hsize; [|discriminate].
    intros Hn. apply Z.ltb_lt in Hn. exists r, n. auto.
  - intros [r [n [-> [Hrc [Hsize Hn]]]]].
    rewrite Hrc, Hsize. cbn. now apply Z.ltb_lt.
Qed.

Lemma capture_succeeds_iff_witness :
  capture_ok good_run = true /\ capture_ok failed_run = false.
Proof.
  split.
  - apply (proj2 (capture_succeeds_iff good_run no_files)).
    exists {| returncode := 0; output_size := Ok 1411244 |}, 1411244.
    repeat split; try reflexivity; lia.
  - destruct (capture_ok failed_run) eqn:H; [|reflexivity].
    apply (proj2 (capture_succeeds_iff failed_run no_files)) in H.
    destruct H as [r [n [H _]]]. discriminate H.
Defined.

(** X2. [clear_cover] always returns normally and never touches the temp
    file.  When no cover file exists it does nothing at all; when the
    removal fails the cover file stays as it is; otherwise the cover file is
    gone.  Clearing twice is clearing once. *)
Theorem clear_cover_tolerant :
  forall (fails fails' : bool) (fs : filesys),
    let out := clear_cover fails fs in
    result_of out = Ok tt
    /\ tmp_file (files_of out) = tmp_file fs
    /\ (cover_file fs = None -> out = (Ok tt, fs, []))
    /\ (fails = true -> files_of out = fs)
    /\ (fails = false -> cover_file (files_of out) = None
                         /\ clear_cover fails' (files_of out)
                            = (Ok tt, files_of out, [])).
Proof.
  intros fails fails' fs out. subst out.
  rewrite clear_cover_run.
  destruct fs as [[c|] t]; cbn [cover_file tmp_file].
  - destruct fails; cbn; repeat split; try discriminate; try reflexivity.
  - cbn. repeat split; try reflexivity.
    all: intros _; rewrite clear_cover_run; reflexivity.
Qed.

Lemma clear_cover_tolerant_witness :
  cover_file (files_of (clear_cover false with_cover)) = None
  /\ files_of (clear_cover true with_cover) = with_cover
  /\ clear_cover false no_files = (Ok tt, no_files, []).
Proof.
  pose proof (clear_cover_tolerant false false no_files) as Habsent.
  pose proof (clear_cover_tolerant true false with_cover) as Hfails.
  pose proof (clear_cover_tolerant false false with_cover) as Hfine.
  cbv zeta in Habsent, Hfails, Hfine.
  destruct Habsent as [_ [_ [Habsent _]]].
  destruct Hfails as [_ [_ [_ [Hfails _]]]].
  destruct Hfine as [_ [_ [_ [_ Hfine]]]].
  split; [exact (proj1 (Hfine eq_refl))|].
  split; [exact (Hfails eq_refl) | exact (Habsent eq_refl)].
Defined.

(* ===================================================================== *)
(** ** Further results: the recognition *)
(* ===================================================================== *)

(** X3. On a response whose track is a non-empty dict with readable sections
    and, when present, a dict of images, [recognize] returns the four-field
    track of the title and the subtitle (each "Unknown" when missing), the
    scanned album ("Unknown" when no section has an album entry) and the
    cover the images offer: the high-quality URL when set, else the standard
    one when set, else the empty string. *)
Theorem recognize_readable :
  forall (res track : list (string * value)),
    lookup "track" res = Some (VDict track) ->
    track <> [] ->
    forallb readable_section
            (match field_or "sections" track (VList []) with
             | VList sections => sections
             | _ => [VNone]
             end) = true ->
    is_dict (field_or "images" track (VDict [])) = true ->
    recognize (Ok (VDict res))
    = make_track (field_or "title" track (VStr "Unknown"))
                 (field_or "subtitle" track (VStr "Unknown"))
                 (scanned_album (match field_or "sections" track (VList []) with
                                 | VList sections => sections
                                 | _ => []
                                 end))
                 (offered_cover (match field_or "images" track (VDict []) with
                                 | VDict images => images
                                 | _ => []
                                 end)).
Proof.
  intros res track Htrack Hne Hsecs Himages.
  assert (Htruthy : truthy (VDict track) = true)
    by (destruct track; [contradiction|reflexivity]).
  unfold recognize, recognize_try, offered_cover, scanned_album, field_or in *.
  cbn [rbind method_get]. rewrite Htrack. cbn [rbind].
  rewrite Htruthy. cbn [negb method_get].
  destruct (lookup "sections" track) as [[| | | |sections|]|];
    try discriminate Hsecs; cbn [rbind py_iter].
  - rewrite (scan_sections_last_wins sections _ Hsecs). cbn [rbind method_get].
    destruct (lookup "images" track) as [[| | | | |images]|];
      try discriminate Himages; cbn [rbind method_get lookup truthy].
    + destruct (lookup "coverarthq" images) as [hq|]; cbn [rbind truthy].
      * destruct (truthy hq); cbn [rbind];
          [|destruct (lookup "coverart" images) as [std|]; cbn [rbind truthy]];
          destruct (lookup "title" track), (lookup "subtitle" track); reflexivity.
      * destruct (lookup "coverart" images) as [std|]; cbn [rbind truthy];
          destruct (lookup "title" track), (lookup "subtitle" track); reflexivity.
    + destruct (lookup "title" track), (lookup "subtitle" track); reflexivity.
  - cbn [scan_sections rbind method_get fold_left].
    destruct (lookup "images" track) as [[| | | | |images]|];
      try discriminate Himages; cbn [rbind method_get lookup truthy].
    + destruct (lookup "coverarthq" images) as [hq|]; cbn [rbind truthy].
      * destruct (truthy hq); cbn [rbind];
          [|destruct (lookup "coverart" images) as [std|]; cbn [rbind truthy]];
          destruct (lookup "title" track), (lookup "subtitle" track); reflexivity.
      * destruct (lookup "coverart" images) as [std|]; cbn [rbind truthy];
          destruct (lookup "title" track), (lookup "subtitle" track); reflexivity.
    + destruct (lookup "title" track), (lookup "subtitle" track); reflexivity.
Qed.

Lemma recognize_readable_witness :
  recognize (Ok bare_response)
  = make_track (VStr "Unknown") (VStr "Unknown") (VStr "Unknown") (VStr "")
  /\ recognize (Ok hq_response)
     = make_track (VStr "Echoes") (VStr "Unknown") (VStr "Unknown")
                  (VStr "http://x/800.jpg").
Proof.
  split.
  - apply (recognize_readable [("track", VDict [("key", VStr "40937751")])]
             [("key", VStr "40937751")]); try reflexivity. discriminate.
  - apply (recognize_readable
             [("track",
               VDict [("title", VStr "Echoes");
                      ("images", VDict [("coverart", VStr "http://x/400.jpg");
                                        ("coverarthq", VStr "http://x/800.jpg")])])]
             [("title", VStr "Echoes");
              ("images", VDict [("coverart", VStr "http://x/400.jpg");
                                ("coverarthq", VStr "http://x/800.jpg")])]);
      try reflexivity. discriminate.
Defined.

Lemma scan_sections_not_a_dict (sections : list value) :
  forall album,
    existsb (fun section => negb (is_dict section)) sections = true ->
    exists e, scan_sections sections album = Raise e.
Proof.
  induction sections as [|section rest IH]; intros album Hbad; [discriminate|].
  cbn [existsb] in Hbad. cbn [scan_sections].
  destruct section as [| | | | |items];
    try (cbn; eexists; reflexivity).
  cbn [is_dict negb orb] in Hbad.
  destruct (method_get (VDict items) "metadata" (VList [])) as [m|e]; cbn [rbind];
    [|eexists; reflexivity].
  destruct (py_iter m) as [metas|e]; cbn [rbind]; [|eexists; reflexivity].
  destruct (scan_metadata metas album) as [album'|e]; cbn [rbind];
    [|eexists; reflexivity].
  exact (IH album' Hbad).
Qed.

(** X4. One section that is not a dict discards the whole recognition: when
    the sections of the track hold such an element, [recognize] returns the
    empty result, whatever title, artist, album entries and images the
    response carries. *)
Theorem recognize_drops_on_broken_section :
  forall (res track : list (string * value)) (sections : list value),
    lookup "track" res = Some (VDict track) ->
    lookup "sections" track = Some (VList sections) ->
    existsb (fun section => negb (is_dict section)) sections = true ->
    recognize (Ok (VDict res)) = VDict [].
Proof.
  intros res track sections Htrack Hsecs Hbad.
  unfold recognize, recognize_try.
  cbn [rbind method_get]. rewrite Htrack. cbn [rbind].
  destruct (truthy (VDict track)); cbn [negb]; [|reflexivity].
  cbn [method_get]. rewrite Hsecs. cbn [rbind py_iter].
  destruct (scan_sections_not_a_dict sections (VStr "Unknown") Hbad) as [e ->].
  reflexivity.
Qed.

Lemma recognize_drops_on_broken_section_witness :
  recognize (Ok broken_sections_response) = VDict [].
Proof.
  apply (recognize_drops_on_broken_section
           [("track", VDict [("title", VStr "Echoes");
                             ("subtitle", VStr "Pink Floyd");
                             ("sections",
                              VList [VDict [("metadata", VList [album_entry "Meddle"])];
                                     VStr "LYRICS"])])]
           [("title", VStr "Echoes");
            ("subtitle", VStr "Pink Floyd");
            ("sections", VList [VDict [("metadata", VList [album_entry "Meddle"])];
                                VStr "LYRICS"])]
           [VDict [("metadata", VList [album_entry "Meddle"])]; VStr "LYRICS"]);
    reflexivity.
Defined.

(** X5. Within a section the scan stops at the first album entry: the
    entries after it are never looked at, so the album is the text of that
    entry ("Unknown" when it has none) whatever follows, malformed entries
    included. *)
Theorem scan_metadata_stops_at_album :
  forall (before after : list value) (entry : value) (album : value),
    forallb readable_entry before = true ->
    find is_album_entry before = None ->
    is_album_entry entry = true ->
    scan_metadata (before ++ entry :: after) album = Ok (entry_text entry).
Proof.
  induction before as [|meta rest IH]; intros after entry album Hread Hnone Hentry.
  - cbn [app scan_metadata].
    destruct entry as [| | | | |items]; try discriminate Hentry.
    cbn in Hentry. cbn [method_get].
    destruct (lookup "title" items) as [[| | |label| |]|]; try discriminate Hentry.
    cbn [rbind method_lower]. rewrite Hentry.
    cbn [entry_text]. destruct (lookup "text" items); reflexivity.
  - cbn [forallb] in Hread. apply andb_true_iff in Hread as [Hmeta Hrest].
    cbn [find] in Hnone.
    destruct (is_album_entry meta) eqn:Halbum; [discriminate Hnone|].
    cbn [app scan_metadata].
    destruct meta as [| | | | |items]; try discriminate Hmeta.
    cbn in Hmeta, Halbum. cbn [method_get].
    destruct (lookup "title" items) as [[| | |label| |]|]; try discriminate Hmeta;
      cbn [rbind method_lower].
    + rewrite Halbum. exact (IH after entry album Hrest Hnone Hentry).
    + cbn. exact (IH after entry album Hrest Hnone Hentry).
Qed.

Lemma scan_metadata_stops_at_album_witness :
  scan_metadata ([VDict [("title", VStr "Label"); ("text", VStr "Harvest")]]
                 ++ album_entry "Meddle" :: [VInt 7; VNone])
                (VStr "Unknown")
  = Ok (entry_text (album_entry "Meddle")).
Proof.
  apply (scan_metadata_stops_at_album
           [VDict [("title", VStr "Label"); ("text", VStr "Harvest")]]
           [VInt 7; VNone] (album_entry "Meddle") (VStr "Unknown"));
    reflexivity.
Defined.

(* ===================================================================== *)
(** ** Further results: the listener count *)
(* ===================================================================== *)

Lemma sum_listeners_breaks (sources : list value) :
  forall acc,
    existsb breaks_sum sources = true ->
    exists e, sum_listeners acc sources = Raise e.
Proof.
  induction sources as [|s rest IH]; intros acc Hbad; [discriminate|].
  cbn [existsb] in Hbad. cbn [sum_listeners].
  destruct s as [| | | | |items]; try (cbn; eexists; reflexivity).
  cbn [breaks_sum method_get] in *.
  destruct (lookup "listeners" items) as [[| b | n | | |]|]; cbn [rbind to_int];
    try (eexists; reflexivity); cbn [orb] in Hbad; apply IH; exact Hbad.
Qed.

(** X6. The list of sources is summed all or nothing: one element that is
    not a dict, or whose listener count is a str, [None], a list or a dict,
    makes the sum raise, and the count returned is 0, whatever the other
    sources report. *)
Theorem one_bad_source_zeroes_count :
  forall (doc ice : list (string * value)) (sources : list value),
    lookup "icestats" doc = Some (VDict ice) ->
    lookup "source" ice = Some (VList sources) ->
    existsb breaks_sum sources = true ->
    get_listener_count (Ok (VDict doc)) = VInt 0.
Proof.
  intros doc ice sources Hice Hsrc Hbad.
  unfold get_listener_count, get_listener_count_try.
  cbn [rbind method_get]. rewrite Hice. cbn [rbind method_get]. rewrite Hsrc.
  cbn [rbind].
  destruct (sum_listeners_breaks sources 0 Hbad) as [e ->]. reflexivity.
Qed.

Lemma one_bad_source_zeroes_count_witness :
  get_listener_count (Ok (VDict stats_mixed)) = VInt 0.
Proof.
  apply (one_bad_source_zeroes_count stats_mixed
           [("source", VList mixed_sources)] mixed_sources); reflexivity.
Defined.

Lemma sum_listeners_total (sources : list value) (acc : Z) :
  (exists n, sum_listeners acc sources = Ok n)
  \/ (exists e, sum_listeners acc sources = Raise e).
Proof. destruct (sum_listeners acc sources); eauto. Qed.

(** The count read from a reply is a number unless the reply is garbled. *)
Lemma reading_cases (env : cycle_env) :
  (garbled_count (stats env) = true /\ reading env = Raise TypeError)
  \/ (garbled_count (stats env) = false /\ exists n, reading env = Ok n).
Proof.
  unfold reading, get_listener_count, get_listener_count_try, garbled_count.
  destruct (stats env) as [[| | | | |doc]|e]; cbn [rbind method_get to_int];
    try (right; split; [reflexivity|eexists; reflexivity]).
  destruct (lookup "icestats" doc) as [[| | | | |ice]|]; cbn [rbind method_get to_int lookup];
    try (right; split; [reflexivity|eexists; reflexivity]).
  destruct (lookup "source" ice) as [[| | | |sources|src]|];
    cbn [rbind method_get to_int lookup];
    try (right; split; [reflexivity|eexists; reflexivity]).
  - right. split; [reflexivity|].
    destruct (sum_listeners 0 sources); cbn; eexists; reflexivity.
  - destruct (lookup "listeners" src) as [[| | | | |]|]; cbn;
      first [ left; split; reflexivity
            | right; split; [reflexivity|eexists; reflexivity] ].
Qed.

(** X7. A stats document whose single source object carries a listener
    count that is not a number ends the loop: the count is handed out as it
    is, the comparison with 1 raises [TypeError], and the loop stops right
    after the probe, without a publish, a capture or a wait, and without
    running any later iteration. *)
Theorem garbled_count_ends_loop :
  forall (repr : value -> string) (s : loop_state) (env : cycle_env)
         (rest : list cycle_env) (fs : filesys)
         (doc ice src : list (string * value)) (v : value),
    stats env = Ok (VDict doc) ->
    lookup "icestats" doc = Some (VDict ice) ->
    lookup "source" ice = Some (VDict src) ->
    lookup "listeners" src = Some v ->
    not_a_number v = true ->
    get_listener_count (stats env) = v
    /\ main_loop repr s (env :: rest) fs = (Raise TypeError, fs, [EvStatsGet]).
Proof.
  intros repr s env rest fs doc ice src v Hstats Hice Hsrc Hv Hnan.
  assert (Hcount : get_listener_count (stats env) = v).
  { unfold get_listener_count, get_listener_count_try. rewrite Hstats.
    cbn [rbind method_get]. rewrite Hice. cbn [rbind method_get]. rewrite Hsrc.
    cbn [rbind method_get]. rewrite Hv. reflexivity. }
  split; [exact Hcount|].
  assert (Hread : reading env = Raise TypeError).
  { unfold reading. rewrite Hcount. destruct v; try discriminate Hnan; reflexivity. }
  cbn [main_loop]. unfold bind at 1.
  rewrite (main_iter_crash repr s env fs TypeError Hread). reflexivity.
Qed.

Lemma garbled_count_ends_loop_witness :
  get_listener_count (stats garbled) = VStr "3"
  /\ main_loop sample_repr playing [garbled; steady_echoes] no_files
     = (Raise TypeError, no_files, [EvStatsGet]).
Proof.
  apply (garbled_count_ends_loop sample_repr playing garbled [steady_echoes] no_files
           [("icestats", VDict [("source", VDict [("listeners", VStr "3")])])]
           [("source", VDict [("listeners", VStr "3")])]
           [("listeners", VStr "3")] (VStr "3"));
    reflexivity.
Defined.

Lemma unstuck_when_removable (url : value) (env : cover_env) (fs : filesys) :
  unlink_fails env = false -> cleanup_stuck url env fs = false.
Proof.
  intros H. unfold cleanup_stuck. rewrite H. now rewrite andb_false_r.
Qed.

Lemma regular_poll_unbroken (repr : value -> string) (last : value) (env : pass_env)
      (fs : filesys) :
  pass_unbroken repr env = true ->
  exists v, result_of (regular_poll repr last env fs) = Ok v.
Proof.
  unfold pass_unbroken. intros H.
  apply andb_true_iff in H as [H Hsong]. apply andb_true_iff in H as [H Hunlink].
  apply andb_true_iff in H as [H Hclient]. apply andb_true_iff in H as [Hwav Hclean].
  apply negb_true_iff in Hwav, Hclean, Hunlink.
  rewrite regular_poll_run, Hwav, Hclean. cbn [result_of fst].
  rewrite regular_try_run.
  destruct (capture_ok (ffmpeg env)); [|eexists; reflexivity].
  destruct (client env) as [[]|e]; [|discriminate Hclient].
  cbv zeta.
  destruct (truthy (recognize (shazam env))) eqn:Htrack; [|eexists; reflexivity].
  destruct (py_eq (recognize (shazam env)) last); [eexists; reflexivity|].
  destruct (recognize_truthy _ Htrack) as [t [a [al [c Ht]]]].
  rewrite Ht in *. cbn [result_of fst]. rewrite handle_track_run.
  pose proof (download_cover_result c (cover env) fs) as Hres.
  rewrite (unstuck_when_removable c (cover env) fs Hunlink) in Hres.
  destruct Hres as [ok ->].
  cbn in Hsong. apply negb_true_iff in Hsong. rewrite Hsong.
  eexists. reflexivity.
Qed.

(** X8. The loop is stopped only by a raise of one of its unprotected
    statements.  When, in every iteration of a run, the listener count is
    not garbled, the temp wav files are created and removed, the Shazam
    client is constructed, the cover temp file can be removed and the song
    of the recognized track can be encoded, every iteration completes,
    whatever the stats endpoint, ffmpeg, the recognition, the fetching and
    writing of the cover and the removal of the cover file do or fail to
    do. *)
Theorem loop_survives_collaborators :
  forall (repr : value -> string) (envs : list cycle_env) (s : loop_state)
         (fs : filesys),
    forallb (unbroken repr) envs = true ->
    exists s', result_of (main_loop repr s envs fs) = Ok s'.
Proof.
  intros repr envs.
  induction envs as [|env rest IH]; intros s fs Hall.
  - exists s. reflexivity.
  - cbn [forallb] in Hall. apply andb_true_iff in Hall as [Henv Hrest].
    unfold unbroken in Henv.
    apply andb_true_iff in Henv as [Henv Hreg].
    apply andb_true_iff in Henv as [Hcount Himm].
    destruct (reading_cases env) as [[Hg _]|[_ [n Hread]]].
    { rewrite Hg in Hcount. discriminate Hcount. }
    assert (Hiter : exists s1, result_of (main_iter repr s env fs) = Ok s1).
    { destruct (Z.lt_ge_cases n 1) as [Hn|Hn].
      - rewrite (main_iter_idle repr s env fs n Hread Hn). eexists. reflexivity.
      - destruct (Z.eq_dec (prev_listeners s) 0) as [Hprev|Hprev].
        + pose proof (main_iter_activation repr s env fs n Hread Hn Hprev) as Hrun.
          cbv zeta in Hrun. rewrite Hrun. clear Hrun.
          destruct (regular_poll_unbroken repr (last_track s) (immediate env) fs Himm)
            as [last ->].
          destruct (regular_poll_unbroken repr last (regular env)
                      (files_of (regular_poll repr (last_track s) (immediate env) fs))
                      Hreg) as [last' ->].
          eexists. reflexivity.
        + pose proof (main_iter_steady repr s env fs n Hread Hn Hprev) as Hrun.
          cbv zeta in Hrun. rewrite Hrun. clear Hrun.
          destruct (regular_poll_unbroken repr (last_track s) (regular env) fs Hreg)
            as [last' ->].
          eexists. reflexivity. }
    destruct Hiter as [s1 Hiter].
    destruct (main_iter repr s env fs) as [[r fs1] tr1] eqn:Hrun.
    cbn [result_of fst] in Hiter. subst r.
    rewrite (main_loop_cons repr s _ env rest fs fs1 tr1 Hrun).
    cbn [result_of fst]. apply IH. exact Hrest.
Qed.

Lemma loop_survives_collaborators_witness :
  exists s',
    result_of (main_loop sample_repr initial_state
                 [{| stats := Raise URLError; immediate := stormy; regular := stormy |};
                  cycle 1 stormy deaf;
                  {| stats := Ok (VList []); immediate := deaf; regular := stormy |};
                  cycle 2 deaf stormy]
                 stale_tmp) = Ok s'.
Proof.
  apply (loop_survives_collaborators sample_repr
           [{| stats := Raise URLError; immediate := stormy; regular := stormy |};
            cycle 1 stormy deaf;
            {| stats := Ok (VList []); immediate := deaf; regular := stormy |};
            cycle 2 deaf stormy]
           initial_state stale_tmp).
  reflexivity.
Defined.

(* ===================================================================== *)
(** ** Further results: the loop state and the files *)
(* ===================================================================== *)

Lemma main_iter_prev (repr : value -> string) (s s' : loop_state) (env : cycle_env)
      (fs : filesys) :
  result_of (main_iter repr s env fs) = Ok s' ->
  exists n, reading env = Ok n /\ prev_listeners s' = Z.max 0 n.
Proof.
  intros Hres.
  destruct (reading env) as [n|e] eqn:Hread.
  - exists n. split; [reflexivity|].
    destruct (Z.lt_ge_cases n 1) as [Hn|Hn].
    + rewrite (main_iter_idle repr s env fs n Hread Hn) in Hres.
      injection Hres as <-. cbn. lia.
    + destruct (main_iter_active_state repr s s' env fs n Hread Hn Hres) as [-> _].
      lia.
  - rewrite (main_iter_crash repr s env fs e Hread) in Hres. discriminate Hres.
Qed.

(** X9. After every iteration [prev_listeners] is the count that iteration
    read, with a count below 1 stored as 0; hence it is never negative along
    a run, and it is 0 exactly when the last iteration found no listener. *)
Theorem prev_listeners_tracks_count :
  (forall (repr : value -> string) (s s' : loop_state) (env : cycle_env)
          (fs : filesys),
      result_of (main_iter repr s env fs) = Ok s' ->
      exists n, reading env = Ok n
                /\ prev_listeners s' = Z.max 0 n
                /\ (prev_listeners s' = 0 <-> is_idle env = true))
  /\ (forall (repr : value -> string) (envs : list cycle_env) (fs : filesys)
             (s : loop_state),
      result_of (main repr envs fs) = Ok s -> 0 <= prev_listeners s).
Proof.
  split.
  - intros repr s s' env fs Hres.
    destruct (main_iter_prev repr s s' env fs Hres) as [n [Hread Hprev]].
    exists n. split; [exact Hread|]. split; [exact Hprev|].
    unfold is_idle. rewrite Hread, Hprev. rewrite Z.ltb_lt. lia.
  - intros repr envs fs. unfold main.
    assert (Hgen : forall (s0 s : loop_state) (fs0 : filesys),
               0 <= prev_listeners s0 ->
               result_of (main_loop repr s0 envs fs0) = Ok s ->
               0 <= prev_listeners s).
    { induction envs as [|env rest IH]; intros s0 s fs0 Hpos Hres.
      - cbn in Hres. injection Hres as <-. exact Hpos.
      - destruct (main_loop_step repr s0 s env rest fs0 Hres) as [s1 [Hiter Hrest]].
        destruct (main_iter_prev repr s0 s1 env fs0 Hiter) as [n [_ Hprev]].
        apply (IH s1 s (files_of (main_iter repr s0 env fs0))); [lia|exact Hrest]. }
    intros s. apply Hgen. cbn. lia.
Qed.

Lemma prev_listeners_tracks_count_witness :
  (exists n, reading first_listener = Ok n
             /\ prev_listeners {| last_track := echoes; prev_listeners := 1 |}
                = Z.max 0 n
             /\ (prev_listeners {| last_track := echoes; prev_listeners := 1 |} = 0
                 <-> is_idle first_listener = true))
  /\ 0 <= prev_listeners {| last_track := echoes; prev_listeners := 0 |}.
Proof.
  destruct prev_listeners_tracks_count as [Hstep Hrun].
  split.
  - apply (Hstep sample_repr initial_state _ first_listener no_files). reflexivity.
  - apply (Hrun sample_repr [first_listener; cycle 0 deaf deaf] no_files). reflexivity.
Defined.

Lemma download_cover_files (url : value) (env : cover_env) (fs : filesys) :
  (tmp_file fs = None -> unlink_fails env = false ->
   tmp_file (files_of (download_cover url env fs)) = None)
  /\ cover_file (files_of (download_cover url env fs))
     = (if downloaded url env fs then Some (served env) else cover_file fs).
Proof.
  unfold downloaded, download_cover. destruct (truthy url); cbn [negb].
  - destruct env as [data flt stuck]. destruct flt, stuck, fs as [c [t|]]; cbn;
      split; try reflexivity; try discriminate; intros; discriminate.
  - cbn. auto.
Qed.

Lemma handle_track_files (repr : value -> string) (title artist album url : value)
      (env : cover_env) (fs : filesys) :
  files_of (handle_track repr (make_track title artist album url) env fs)
  = files_of (download_cover url env fs).
Proof.
  rewrite handle_track_run.
  destruct (result_of (download_cover url env fs)); [|reflexivity].
  destruct (has_surrogate (compose_song repr artist title)); reflexivity.
Qed.

Lemma files_of_triple {A : Type} (r : result A) (fs : filesys) (tr : list event) :
  files_of (r, fs, tr) = fs.
Proof. reflexivity. Qed.

Lemma clear_cover_files (fails : bool) (fs : filesys) :
  tmp_file (files_of (clear_cover fails fs)) = tmp_file fs
  /\ (cover_file (files_of (clear_cover fails fs)) = cover_file fs
      \/ cover_file (files_of (clear_cover fails fs)) = None).
Proof.
  rewrite clear_cover_run. destruct fs as [[c|] t]; [destruct fails|]; cbn; auto.
Qed.

(** The files after a pass, however it ends: a temp file appears only when
    its removal fails, and the cover file is the one before, gone, or the
    whole image served. *)
Lemma regular_poll_files (repr : value -> string) (last : value) (env : pass_env)
      (fs : filesys) :
  (tmp_file fs = None -> unlink_fails (cover env) = false ->
   tmp_file (files_of (regular_poll repr last env fs)) = None)
  /\ (cover_file (files_of (regular_poll repr last env fs)) = cover_file fs
      \/ cover_file (files_of (regular_poll repr last env fs)) = None
      \/ cover_file (files_of (regular_poll repr last env fs))
         = Some (served (cover env))).
Proof.
  rewrite regular_poll_run.
  destruct (create_fails (wav env)); [cbn; auto|].
  rewrite files_of_triple, regular_try_run.
  destruct (capture_ok (ffmpeg env)); [|cbn; auto].
  destruct (client env) as [[]|e]; [|cbn; auto].
  cbv zeta.
  destruct (truthy (recognize (shazam env))) eqn:Htrack.
  - destruct (py_eq (recognize (shazam env)) last); [cbn; auto|].
    destruct (recognize_truthy _ Htrack) as [t [a [al [c ->]]]].
    rewrite files_of_triple, handle_track_files.
    destruct (download_cover_files c (cover env) fs) as [Htmp Hcover].
    split; [exact Htmp|]. rewrite Hcover.
    destruct (downloaded c (cover env) fs); auto.
  - rewrite files_of_triple.
    destruct (clear_cover_files (remove_fails env) fs) as [Htmp Hcover].
    split; [intros H _; rewrite Htmp; exact H|].
    destruct Hcover as [H|H]; auto.
Qed.

Lemma main_iter_files (repr : value -> string) (s : loop_state) (env : cycle_env)
      (fs : filesys) :
  (tmp_file fs = None -> temp_removable env = true ->
   tmp_file (files_of (main_iter repr s env fs)) = None)
  /\ (cover_file (files_of (main_iter repr s env fs)) = cover_file fs
      \/ cover_file (files_of (main_iter repr s env fs)) = None
      \/ exists image, In image (served_images [env])
                       /\ cover_file (files_of (main_iter repr s env fs)) = Some image).
Proof.
  assert (Hremovable : temp_removable env = true ->
                       unlink_fails (cover (immediate env)) = false
                       /\ unlink_fails (cover (regular env)) = false).
  { unfold temp_removable. intros H. apply andb_true_iff in H as [H1 H2].
    apply negb_true_iff in H1, H2. auto. }
  destruct (reading env) as [n|e] eqn:Hread.
  2: { rewrite (main_iter_crash repr s env fs e Hread). cbn. auto. }
  destruct (Z.lt_ge_cases n 1) as [Hn|Hn].
  { rewrite (main_iter_idle repr s env fs n Hread Hn). cbn. auto. }
  destruct (Z.eq_dec (prev_listeners s) 0) as [Hprev|Hprev].
  - pose proof (main_iter_activation repr s env fs n Hread Hn Hprev) as Hrun.
    cbv zeta in Hrun. rewrite Hrun. clear Hrun.
    destruct (regular_poll_files repr (last_track s) (immediate env) fs)
      as [Htmp1 Hcover1].
    set (first := regular_poll repr (last_track s) (immediate env) fs) in *.
    assert (Hfirst : cover_file (files_of first) = cover_file fs
                     \/ cover_file (files_of first) = None
                     \/ exists image, In image (served_images [env])
                                      /\ cover_file (files_of first) = Some image).
    { destruct Hcover1 as [H1|[H1|H1]]; auto.
      right; right. eexists. split; [|exact H1]. cbn. auto. }
    destruct (result_of first) as [last|e].
    2: { cbn [files_of fst snd]. split; [|exact Hfirst].
         intros Htmp Hrem. apply Htmp1; [exact Htmp|]. apply Hremovable, Hrem. }
    destruct (regular_poll_files repr last (regular env) (files_of first))
      as [Htmp2 Hcover2].
    set (second := regular_poll repr last (regular env) (files_of first)) in *.
    assert (Hfiles :
      (tmp_file fs = None -> temp_removable env = true ->
       tmp_file (files_of second) = None)
      /\ (cover_file (files_of second) = cover_file fs
          \/ cover_file (files_of second) = None
          \/ exists image, In image (served_images [env])
                           /\ cover_file (files_of second) = Some image)).
    { split.
      - intros Htmp Hrem. destruct (Hremovable Hrem) as [Hr1 Hr2].
        apply Htmp2; [apply Htmp1; assumption|exact Hr2].
      - destruct Hcover2 as [H2|[H2|H2]].
        + rewrite H2. exact Hfirst.
        + auto.
        + right; right. eexists. split; [|exact H2]. cbn. auto. }
    destruct (result_of second); exact Hfiles.
  - pose proof (main_iter_steady repr s env fs n Hread Hn Hprev) as Hrun.
    cbv zeta in Hrun. rewrite Hrun. clear Hrun.
    destruct (regular_poll_files repr (last_track s) (regular env) fs)
      as [Htmp Hcover].
    set (out := regular_poll repr (last_track s) (regular env) fs) in *.
    assert (Hfiles :
      (tmp_file fs = None -> temp_removable env = true ->
       tmp_file (files_of out) = None)
      /\ (cover_file (files_of out) = cover_file fs
          \/ cover_file (files_of out) = None
          \/ exists image, In image (served_images [env])
                           /\ cover_file (files_of out) = Some image)).
    { split.
      - intros Ht Hrem. apply Htmp; [exact Ht|]. apply Hremovable, Hrem.
      - destruct Hcover as [H|[H|H]]; auto.
        right; right. eexists. split; [|exact H]. cbn. auto. }
    destruct (result_of out); exact Hfiles.
Qed.

(** X10. However a run ends, by completing or by a raise, the cover file is
    the one the run found, or absent, or one of the images served to the run
    in full: never what a failed write left in the temp file.  A run that
    starts without a temp file leaves none behind unless a removal of the
    temp file itself fails. *)
Theorem cover_file_whole_or_absent :
  forall (repr : value -> string) (envs : list cycle_env) (s : loop_state)
         (fs : filesys),
    let out := main_loop repr s envs fs in
    (cover_file (files_of out) = cover_file fs
     \/ cover_file (files_of out) = None
     \/ exists image, In image (served_images envs)
                      /\ cover_file (files_of out) = Some image)
    /\ (tmp_file fs = None ->
        forallb temp_removable envs = true ->
        tmp_file (files_of out) = None).
Proof.
  intros repr envs. induction envs as [|env rest IH]; intros s fs out; subst out.
  - cbn. auto.
  - destruct (main_iter_files repr s env fs) as [Htmp1 Hcover1].
    assert (Hin : forall image, In image (served_images [env])
                                \/ In image (served_images rest) ->
                                In image (served_images (env :: rest))).
    { intros image. unfold served_images. cbn [flat_map]. rewrite app_nil_r.
      intros H. apply in_or_app. exact H. }
    destruct (main_iter repr s env fs) as [[[s1|e] fs1] tr1] eqn:Hiter;
      cbn [files_of fst snd] in Htmp1, Hcover1.
    + rewrite (main_loop_cons repr s s1 env rest fs fs1 tr1 Hiter).
      cbn [files_of fst snd].
      destruct (IH s1 fs1) as [Hcover2 Htmp2].
      split.
      * destruct Hcover2 as [H2|[H2|[image [Himage H2]]]].
        -- rewrite H2. destruct Hcover1 as [H1|[H1|[image [Himage H1]]]]; auto.
           right; right. exists image. split; [apply Hin; now left|exact H1].
        -- auto.
        -- right; right. exists image. split; [apply Hin; now right|exact H2].
      * intros Htmp Hall. cbn [forallb] in Hall.
        apply andb_true_iff in Hall as [Henv Hrest]. auto.
    + rewrite (main_loop_raise repr s env rest fs fs1 tr1 e Hiter).
      cbn [files_of fst snd]. split.
      * destruct Hcover1 as [H1|[H1|[image [Himage H1]]]]; auto.
        right; right. exists image. split; [apply Hin; now left|exact H1].
      * intros Htmp Hall. cbn [forallb] in Hall.
        apply andb_true_iff in Hall as [Henv Hrest]. auto.
Qed.

Lemma cover_file_whole_or_absent_witness :
  tmp_file (files_of (main_loop sample_repr initial_state
                        [cycle 1 torn_download (hears echoes_response);
                         cycle 2 deaf torn_download] with_cover)) = None.
Proof.
  apply (proj2 (cover_file_whole_or_absent sample_repr
                  [cycle 1 torn_download (hears echoes_response);
                   cycle 2 deaf torn_download]
                  initial_state with_cover));
    reflexivity.
Defined.

(* ===================================================================== *)
(** ** Further results: handling a track *)
(* ===================================================================== *)

(** X11. [handle_track] needs a dict with an artist and a title.  On a value
    that is not a dict it raises [AttributeError] before doing anything; on
    a dict without an artist, or with an artist and without a title, it
    raises [KeyError] without issuing a metadata update, after the cover
    download has already run (and unless the download itself raised). *)
Theorem handle_track_needs_artist_and_title :
  (forall (repr : value -> string) (track : value) (env : cover_env) (fs : filesys),
      is_dict track = false ->
      handle_track repr track env fs = (Raise AttributeError, fs, []))
  /\ (forall (repr : value -> string) (items : list (string * value))
             (env : cover_env) (fs : filesys),
      lookup "artist" items = None
      \/ (lookup "artist" items <> None /\ lookup "title" items = None) ->
      let out := handle_track repr (VDict items) env fs in
      let download := download_cover (field_or "cover" items VNone) env fs in
      result_of out = match result_of download with
                      | Ok _ => Raise KeyError
                      | Raise e => Raise e
                      end
      /\ filter is_metadata (trace_of out) = []
      /\ trace_of out = trace_of download
      /\ files_of out = files_of download).
Proof.
  split.
  - intros repr track env fs Hdict. unfold handle_track.
    destruct track; try discriminate Hdict; reflexivity.
  - intros repr items env fs Hmissing out download. subst out download.
    unfold handle_track, field_or. cbn [method_get subscript].
    pose proof (download_cover_trace (match lookup "cover" items with
                                      | Some v => v
                                      | None => VNone
                                      end) env fs) as Htrace.
    destruct (lookup "cover" items) as [c|].
    + run_io. destruct (truthy c) eqn:Hc.
      * run_io.
        destruct (download_cover c env fs) as [[[ok|e] fs1] tr1];
          cbn [trace_of snd] in Htrace.
        -- destruct Hmissing as [Ha|[Ha Ht]].
           ++ rewrite Ha. cbn. rewrite !app_nil_r.
              repeat split; try reflexivity.
              apply filter_metadata_download. exact Htrace.
           ++ destruct (lookup "artist" items) as [a|]; [|contradiction].
              rewrite Ht. cbn. rewrite !app_nil_r.
              repeat split; try reflexivity.
              apply filter_metadata_download. exact Htrace.
        -- cbn. rewrite ?app_nil_r. repeat split; try reflexivity.
           apply filter_metadata_download. exact Htrace.
      * unfold download_cover. rewrite Hc. run_io.
        destruct Hmissing as [Ha|[Ha Ht]].
        -- rewrite Ha. cbn. repeat split; reflexivity.
        -- destruct (lookup "artist" items) as [a|]; [|contradiction].
           rewrite Ht. cbn. repeat split; reflexivity.
    + run_io. cbn [truthy]. unfold download_cover. cbn [truthy negb]. run_io.
      destruct Hmissing as [Ha|[Ha Ht]].
      * rewrite Ha. cbn. repeat split; reflexivity.
      * destruct (lookup "artist" items) as [a|]; [|contradiction].
        rewrite Ht. cbn. repeat split; reflexivity.
Qed.

Lemma handle_track_needs_artist_and_title_witness :
  handle_track sample_repr VNone served_fine no_files
  = (Raise AttributeError, no_files, [])
  /\ result_of (handle_track sample_repr
                  (VDict [("title", VStr "Echoes"); ("cover", VStr "http://x/cover.jpg")])
                  served_fine no_files) = Raise KeyError
  /\ cover_file (files_of (handle_track sample_repr
                             (VDict [("title", VStr "Echoes");
                                     ("cover", VStr "http://x/cover.jpg")])
                             served_fine no_files)) = Some sample_image.
Proof.
  destruct handle_track_needs_artist_and_title as [Hvalue Hdict].
  split; [apply Hvalue; reflexivity|].
  pose proof (Hdict sample_repr
                [("title", VStr "Echoes"); ("cover", VStr "http://x/cover.jpg")]
                served_fine no_files (or_introl eq_refl)) as H.
  cbv zeta in H. destruct H as [Hres [_ [_ Hfiles]]].
  split; [exact Hres|]. rewrite Hfiles. reflexivity.
Defined.

(** X12. A track never removes the cover file: after [handle_track],
    however it ends, the cover file is the image served when the download
    succeeded and the file found otherwise.  A track whose cover field is
    empty leaves both files as they are: all it does is issue its update,
    without URL, or raise when its song cannot be encoded; the image of an
    earlier track stays at the public path. *)
Theorem handle_track_keeps_old_cover :
  forall (repr : value -> string) (title artist album url : value)
         (env : cover_env) (fs : filesys),
    let out := handle_track repr (make_track title artist album url) env fs in
    cover_file (files_of out)
    = (if downloaded url env fs then Some (served env) else cover_file fs)
    /\ (truthy url = false ->
        out = if has_surrogate (compose_song repr artist title)
              then (Raise UnicodeEncodeError, fs, [])
              else (Ok tt, fs, [EvMetadata (metadata_params repr artist title "")])).
Proof.
  intros repr title artist album url env fs out. subst out.
  split.
  - rewrite handle_track_files. apply download_cover_files.
  - intros Hurl. rewrite handle_track_run. unfold downloaded, download_cover.
    rewrite Hurl. cbn [negb ret result_of files_of trace_of fst snd app].
    reflexivity.
Qed.

Lemma handle_track_keeps_old_cover_witness :
  handle_track sample_repr coverless served_fine with_cover
  = (Ok tt, with_cover,
     [EvMetadata [("mount", "/stream.mp3"); ("mode", "updinfo");
                  ("song", "Pink Floyd - Echoes")]]).
Proof.
  apply (proj2 (handle_track_keeps_old_cover sample_repr (VStr "Echoes")
                  (VStr "Pink Floyd") (VStr "Meddle") (VStr "") served_fine with_cover)).
  reflexivity.
Defined.

(* ===================================================================== *)
(** ** Further results: the course of the loop *)
(* ===================================================================== *)

(** X13. A pause does not make the loop forget the track: when the track
    stored before the pause is recognized again after it, by both passes of
    the iteration that finds the listener back, nothing is published for it.
    Over the pause and the return the metadata updates are "Paused" and
    "Detecting...", in this order, and "Detecting..." is the one left
    standing. *)
Theorem same_track_after_pause_stays_detecting :
  forall (repr : value -> string) (s : loop_state) (idle resume : cycle_env)
         (fs : filesys) (n : Z),
    1 <= prev_listeners s ->
    is_idle idle = true ->
    reading resume = Ok n -> 1 <= n ->
    heard (immediate resume) = true ->
    heard (regular resume) = true ->
    cleanup_fails (immediate resume) = false ->
    cleanup_fails (regular resume) = false ->
    truthy (recognize (shazam (immediate resume))) = true ->
    truthy (recognize (shazam (regular resume))) = true ->
    py_eq (recognize (shazam (immediate resume))) (last_track s) = true ->
    py_eq (recognize (shazam (regular resume))) (last_track s) = true ->
    main_loop repr s [idle; resume] fs
    = (Ok {| last_track := last_track s; prev_listeners := n |}, fs,
       [EvStatsGet; placeholder "Paused"; EvSleep 15;
        EvStatsGet; placeholder "Detecting..."; EvSleep 5;
        EvCapture; EvRecognize; EvCapture; EvRecognize; EvSleep POLL_INTERVAL]).
Proof.
  intros repr s idle resume fs n Hprev Hidle Hread Hn Hheard1 Hheard2 Hclean1 Hclean2
         Ht1 Ht2 Heq1 Heq2.
  destruct (is_idle_reading _ Hidle) as [m [Hreadi Hm]].
  pose proof (main_iter_idle repr s idle fs m Hreadi Hm) as Hfirst.
  replace (prev_listeners s >=? 1) with true in Hfirst
    by (symmetry; apply Z.geb_le; lia).
  rewrite (main_loop_cons repr s _ idle [resume] fs fs _ Hfirst).
  pose proof (main_iter_activation repr
                {| last_track := last_track s; prev_listeners := 0 |}
                resume fs n Hread Hn eq_refl) as Hsecond.
  cbv zeta in Hsecond. cbn [last_track] in Hsecond.
  rewrite (unchanged_pass repr (last_track s) (immediate resume) fs Hheard1 Ht1 Heq1)
    in Hsecond.
  rewrite Hclean1 in Hsecond.
  cbn [result_of files_of trace_of fst snd] in Hsecond.
  rewrite (unchanged_pass repr (last_track s) (regular resume) fs Hheard2 Ht2 Heq2)
    in Hsecond.
  rewrite Hclean2 in Hsecond.
  cbn [result_of files_of trace_of fst snd app] in Hsecond.
  rewrite (main_loop_cons repr _ _ resume [] fs fs _ Hsecond).
  reflexivity.
Qed.

Lemma same_track_after_pause_stays_detecting_witness :
  main_loop sample_repr playing [cycle 0 deaf deaf; resume_echoes] no_files
  = (Ok {| last_track := last_track playing; prev_listeners := 1 |}, no_files,
     [EvStatsGet; placeholder "Paused"; EvSleep 15;
      EvStatsGet; placeholder "Detecting..."; EvSleep 5;
      EvCapture; EvRecognize; EvCapture; EvRecognize; EvSleep POLL_INTERVAL]).
Proof.
  apply (same_track_after_pause_stays_detecting sample_repr playing
           (cycle 0 deaf deaf) resume_echoes no_files 1);
    try reflexivity; cbn; lia.
Defined.

Lemma count_app (p : event -> bool) (tr1 tr2 : list event) :
  count p (tr1 ++ tr2) = (count p tr1 + count p tr2)%nat.
Proof. unfold count. rewrite filter_app. apply length_app. Qed.

Lemma count_excluded (p q : event -> bool) (tr : list event) :
  (forall e, q e = true -> p e = false) ->
  forallb q tr = true -> count p tr = 0%nat.
Proof.
  intros Hpq. unfold count.
  induction tr as [|e tr IH]; intros Hall; [reflexivity|].
  cbn [forallb] in Hall. apply andb_true_iff in Hall as [He Htr].
  cbn [filter]. rewrite (Hpq e He). auto.
Qed.

Lemma download_counts (url : value) (env : cover_env) (fs : filesys)
      (p : event -> bool) :
  (forall e, is_download e = true -> p e = false) ->
  count p (trace_of (download_cover url env fs)) = 0%nat.
Proof.
  intros Hp. apply (count_excluded p is_download); [exact Hp|].
  apply download_cover_trace.
Qed.

Lemma download_pass_events (url : value) (env : cover_env) (fs : filesys) :
  forallb is_pass_event (trace_of (download_cover url env fs)) = true.
Proof.
  pose proof (download_cover_trace url env fs) as Hdl.
  revert Hdl. generalize (trace_of (download_cover url env fs)).
  induction l as [|e l IH]; [reflexivity|]. cbn [forallb].
  intros H. apply andb_true_iff in H as [He Hl].
  apply andb_true_iff. split; [|auto].
  destruct e; try discriminate He; reflexivity.
Qed.

(** What the [try] block of a pass emits: one capture, first, at most one
    recognition and at most one metadata update, no probe and no wait. *)
Lemma regular_try_counts (repr : value -> string) (last : value) (env : pass_env)
      (fs : filesys) :
  let tr := trace_of (regular_try repr last env fs) in
  count is_capture tr = 1%nat
  /\ (count is_recognize tr <= 1)%nat
  /\ (count is_metadata tr <= 1)%nat
  /\ forallb is_pass_event tr = true.
Proof.
  cbv zeta. rewrite regular_try_run.
  destruct (capture_ok (ffmpeg env)); [|cbn; repeat split; lia].
  destruct (client env) as [[]|e]; [|cbn; repeat split; lia].
  cbv zeta.
  destruct (truthy (recognize (shazam env))) eqn:Htrack.
  - destruct (py_eq (recognize (shazam env)) last); [cbn; repeat split; lia|].
    destruct (recognize_truthy _ Htrack) as [t [a [al [c ->]]]].
    rewrite handle_track_run. cbn [trace_of snd].
    change (EvCapture :: EvRecognize :: ?tr) with ([EvCapture; EvRecognize] ++ tr).
    pose proof (download_pass_events c (cover env) fs) as Hpass.
    assert (Hcounts : forall p, (forall e, is_download e = true -> p e = false) ->
                                count p (trace_of (download_cover c (cover env) fs))
                                = 0%nat)
      by (intros p Hp; apply download_counts; exact Hp).
    pose proof (Hcounts is_capture
                  ltac:(intros [] H; now try discriminate H)) as Hc.
    pose proof (Hcounts is_recognize
                  ltac:(intros [] H; now try discriminate H)) as Hr.
    pose proof (Hcounts is_metadata
                  ltac:(intros [] H; now try discriminate H)) as Hm.
    destruct (result_of (download_cover c (cover env) fs));
      [destruct (has_surrogate (compose_song repr a t))|];
      cbn [trace_of snd]; rewrite !count_app, !forallb_app, ?Hc, ?Hr, ?Hm, ?Hpass;
      cbn; repeat split; lia.
  - cbn [trace_of snd].
    destruct (clear_cover_trace (remove_fails env) fs) as [-> | ->];
      cbn; repeat split; lia.
Qed.

(** What one pass emits: nothing when its temp file cannot be created, what
    its [try] block emits otherwise. *)
Lemma regular_poll_counts (repr : value -> string) (last : value) (env : pass_env)
      (fs : filesys) :
  let out := regular_poll repr last env fs in
  (count is_capture (trace_of out) <= 1)%nat
  /\ (forall v, result_of out = Ok v -> count is_capture (trace_of out) = 1%nat)
  /\ (count is_recognize (trace_of out) <= count is_capture (trace_of out))%nat
  /\ (count is_metadata (trace_of out) <= 1)%nat
  /\ forallb is_pass_event (trace_of out) = true.
Proof.
  cbv zeta. rewrite regular_poll_run.
  destruct (create_fails (wav env)).
  - cbn. repeat split; try lia. intros v Hv. discriminate Hv.
  - cbn [trace_of snd].
    destruct (regular_try_counts repr last env fs) as [Hc [Hr [Hm Hp]]].
    cbv zeta in Hc, Hr, Hm, Hp. rewrite Hc.
    repeat split; try assumption; lia.
Qed.

(** Arithmetic on the counts of passes. *)
Ltac count_lia :=
  repeat match goal with
         | |- context [count ?p (trace_of ?x)] =>
             let c := fresh "c" in set (c := count p (trace_of x)) in *
         end;
  cbn; repeat split; lia.

(** X14. Every iteration that reads a count starts with one probe of the
    stats endpoint and stays within its budget, however it ends: no capture
    when it found no listener, at most two in the iteration that finds the
    first listener and at most one otherwise; at most one call of the
    recognition provider per capture; at most one metadata update when idle
    or steady and at most three on activation.  An iteration that completes
    uses the whole capture budget and waits last: 15 seconds when it found
    no listener, the poll interval otherwise. *)
Theorem iteration_budget :
  forall (repr : value -> string) (s : loop_state) (env : cycle_env)
         (fs : filesys) (n : Z),
    reading env = Ok n ->
    let out := main_iter repr s env fs in
    let captures :=
      if n <? 1 then 0%nat else if prev_listeners s =? 0 then 2%nat else 1%nat in
    (exists rest,
        trace_of out = EvStatsGet :: rest
        /\ count is_stats rest = 0%nat
        /\ (count is_capture rest <= captures)%nat
        /\ (count is_recognize rest <= count is_capture rest)%nat
        /\ (count is_metadata rest
            <= if (n <? 1)%Z then 1 else if (prev_listeners s =? 0)%Z then 3 else 1)%nat)
    /\ (forall s',
        result_of out = Ok s' ->
        exists body,
          trace_of out
          = EvStatsGet :: body ++ [EvSleep (if n <? 1 then 15 else POLL_INTERVAL)]
          /\ count is_capture body = captures).
Proof.
  intros repr s env fs n Hread out captures. subst out captures.
  assert (Hstats : forall tr, forallb is_pass_event tr = true ->
                              count is_stats tr = 0%nat).
  { intros tr. apply count_excluded. intros [] H; now try discriminate H. }
  destruct (Z.ltb_spec n 1) as [Hn|Hn].
  - rewrite (main_iter_idle repr s env fs n Hread Hn).
    cbn [result_of trace_of fst snd]. split.
    + eexists. split; [reflexivity|].
      destruct (prev_listeners s >=? 1); cbn; repeat split; lia.
    + intros s' _. eexists. split; [reflexivity|].
      destruct (prev_listeners s >=? 1); reflexivity.
  - destruct (Z.eqb_spec (prev_listeners s) 0) as [Hprev|Hprev].
    + pose proof (main_iter_activation repr s env fs n Hread Hn Hprev) as Hrun.
      cbv zeta in Hrun. rewrite Hrun. clear Hrun.
      destruct (regular_poll_counts repr (last_track s) (immediate env) fs)
        as [Hc1 [He1 [Hr1 [Hm1 Hp1]]]].
      cbv zeta in Hc1, He1, Hr1, Hm1, Hp1.
      destruct (result_of (regular_poll repr (last_track s) (immediate env) fs))
        as [last|e] eqn:Hfirst.
      * set (first := regular_poll repr (last_track s) (immediate env) fs) in *.
        destruct (regular_poll_counts repr last (regular env) (files_of first))
          as [Hc2 [He2 [Hr2 [Hm2 Hp2]]]].
        cbv zeta in Hc2, He2, Hr2, Hm2, Hp2.
        specialize (He1 last eq_refl).
        set (second := regular_poll repr last (regular env) (files_of first)) in *.
        destruct (result_of second) as [last'|e] eqn:Hsecond;
          cbn [result_of trace_of fst snd].
        -- specialize (He2 last' eq_refl). split.
           ++ exists ([placeholder "Detecting..."; EvSleep 5]
                      ++ trace_of first ++ trace_of second ++ [EvSleep POLL_INTERVAL]).
              split; [reflexivity|].
              rewrite !count_app, (Hstats _ Hp1), (Hstats _ Hp2). count_lia.
           ++ intros s' _.
              exists ([placeholder "Detecting..."; EvSleep 5]
                      ++ trace_of first ++ trace_of second).
              split; [cbn [app]; rewrite <- app_assoc; reflexivity|].
              rewrite !count_app, He1, He2. reflexivity.
        -- split; [|intros s' Hs'; discriminate Hs'].
           exists ([placeholder "Detecting..."; EvSleep 5]
                   ++ trace_of first ++ trace_of second).
           split; [reflexivity|].
           rewrite !count_app, (Hstats _ Hp1), (Hstats _ Hp2). count_lia.
      * cbn [result_of trace_of fst snd].
        split; [|intros s' Hs'; discriminate Hs'].
        exists ([placeholder "Detecting..."; EvSleep 5]
                ++ trace_of (regular_poll repr (last_track s) (immediate env) fs)).
        split; [reflexivity|].
        rewrite !count_app, (Hstats _ Hp1). count_lia.
    + pose proof (main_iter_steady repr s env fs n Hread Hn Hprev) as Hrun.
      cbv zeta in Hrun. rewrite Hrun. clear Hrun.
      destruct (regular_poll_counts repr (last_track s) (regular env) fs)
        as [Hc [He [Hr [Hm Hp]]]].
      cbv zeta in Hc, He, Hr, Hm, Hp.
      destruct (result_of (regular_poll repr (last_track s) (regular env) fs))
        as [last|e] eqn:Hpass; cbn [result_of trace_of fst snd].
      * specialize (He last eq_refl). split.
        -- eexists. split; [reflexivity|].
           rewrite !count_app, (Hstats _ Hp). count_lia.
        -- intros s' _. eexists. split; [reflexivity|]. exact He.
      * split; [|intros s' Hs'; discriminate Hs'].
        eexists. split; [reflexivity|].
        rewrite (Hstats _ Hp). count_lia.
Qed.

Lemma iteration_budget_witness :
  exists body,
    trace_of (main_iter sample_repr initial_state first_listener no_files)
    = EvStatsGet :: body ++ [EvSleep (if 1 <? 1 then 15 else POLL_INTERVAL)]
    /\ count is_capture body
       = (if 1 <? 1 then 0%nat
          else if prev_listeners initial_state =? 0 then 2%nat else 1%nat).
Proof.
  apply (proj2 (iteration_budget sample_repr initial_state first_listener no_files 1
                  eq_refl)
           {| last_track := echoes; prev_listeners := 1 |}).
  reflexivity.
Defined.

(** X15. While nobody listens the loop only probes and waits: over any
    stretch of iterations that find no listener, from any state, nothing is
    captured, the recognition provider is not called, no cover is downloaded
    or removed, both files and the stored track stay as they are, and at
    most one metadata update is issued. *)
Theorem idle_stretch_is_quiet :
  forall (repr : value -> string) (s : loop_state) (envs : list cycle_env)
         (fs : filesys),
    forallb is_idle envs = true ->
    let out := main_loop repr s envs fs in
    files_of out = fs
    /\ (exists s', result_of out = Ok s' /\ last_track s' = last_track s)
    /\ forallb (fun e => is_stats e || is_sleep e || is_metadata e) (trace_of out)
       = true
    /\ (count is_metadata (trace_of out) <= 1)%nat.
Proof.
  intros repr s envs fs Hidle out. subst out.
  destruct envs as [|env rest].
  - cbn. repeat split; eauto.
  - cbn [forallb] in Hidle. apply andb_true_iff in Hidle as [Henv Hrest].
    destruct (is_idle_reading _ Henv) as [n [Hread Hn]].
    rewrite (main_loop_cons repr _ _ env rest fs fs _
               (main_iter_idle repr s env fs n Hread Hn)).
    rewrite (main_loop_stays_idle repr (last_track s) rest fs Hrest).
    cbn [result_of files_of trace_of fst snd].
    split; [reflexivity|]. split; [eexists; split; reflexivity|].
    assert (Hrestq : forallb (fun e => is_stats e || is_sleep e || is_metadata e)
                             (flat_map (fun _ : cycle_env => [EvStatsGet; EvSleep 15]) rest)
                     = true
                     /\ count is_metadata
                          (flat_map (fun _ : cycle_env => [EvStatsGet; EvSleep 15]) rest)
                        = 0%nat).
    { clear. induction rest as [|e rest [IH1 IH2]]; [split; reflexivity|].
      split; [exact IH1|exact IH2]. }
    destruct Hrestq as [Hq Hc].
    change (EvStatsGet :: ?a ++ ?b) with ([EvStatsGet] ++ a ++ b).
    rewrite !forallb_app, !count_app, Hq, Hc.
    destruct (prev_listeners s >=? 1); cbn; split; try reflexivity; lia.
Qed.

Lemma idle_stretch_is_quiet_witness :
  files_of (main_loop sample_repr initial_state
              [cycle 0 stormy stormy; cycle 0 stormy stormy] with_cover) = with_cover
  /\ count is_metadata
       (trace_of (main_loop sample_repr playing
                    [cycle 0 stormy stormy; cycle 0 stormy stormy] with_cover))
     = 1%nat.
Proof.
  pose proof (idle_stretch_is_quiet sample_repr initial_state
                [cycle 0 stormy stormy; cycle 0 stormy stormy] with_cover eq_refl) as H1.
  pose proof (idle_stretch_is_quiet sample_repr playing
                [cycle 0 stormy stormy; cycle 0 stormy stormy] with_cover eq_refl) as H2.
  cbv zeta in H1, H2.
  split; [exact (proj1 H1)|reflexivity].
Defined.

(** X16. A change of track is published once and remembered: when the
    regular poll of an iteration with listeners, following one with
    listeners, recognizes a track that differs from the stored one, and
    neither the removal of a temp file nor the encoding of the song fails,
    the iteration is the probe, the capture, the recognition, the cover
    download (when the track has a cover), one metadata update for the
    track, with the public cover URL exactly when the download succeeded,
    and the wait; the track becomes the stored one. *)
Theorem changed_track_published_once :
  forall (repr : value -> string) (s : loop_state) (env : cycle_env)
         (fs : filesys) (n : Z) (title artist album url : value),
    reading env = Ok n -> 1 <= n -> prev_listeners s <> 0 ->
    heard (regular env) = true ->
    cleanup_fails (regular env) = false ->
    recognize (shazam (regular env)) = make_track title artist album url ->
    py_eq (make_track title artist album url) (last_track s) = false ->
    cleanup_stuck url (cover (regular env)) fs = false ->
    has_surrogate (compose_song repr artist title) = false ->
    main_iter repr s env fs
    = (Ok {| last_track := make_track title artist album url; prev_listeners := n |},
       files_of (download_cover url (cover (regular env)) fs),
       [EvStatsGet; EvCapture; EvRecognize]
       ++ trace_of (download_cover url (cover (regular env)) fs)
       ++ [EvMetadata (metadata_params repr artist title
                         (if downloaded url (cover (regular env)) fs
                          then COVER_PUBLIC_URL else ""));
           EvSleep POLL_INTERVAL]).
Proof.
  intros repr s env fs n title artist album url Hread Hn Hprev Hheard Hclean Htrack
         Hneq Hstuck Hsong.
  pose proof (main_iter_steady repr s env fs n Hread Hn Hprev) as Hrun.
  cbv zeta in Hrun. rewrite Hrun. clear Hrun.
  assert (Hneq' : py_eq (recognize (shazam (regular env))) (last_track s) = false)
    by (rewrite Htrack; exact Hneq).
  pose proof (new_track_pass repr (last_track s) (regular env) fs title artist album url
                Hheard Htrack Hneq') as Hpass.
  cbv zeta in Hpass. rewrite Hpass. clear Hpass.
  rewrite Hclean, handle_track_run.
  pose proof (download_cover_result url (cover (regular env)) fs) as Hdl.
  rewrite Hstuck in Hdl. destruct Hdl as [ok Hok].
  rewrite Hok, Hsong.
  cbn [result_of files_of trace_of fst snd app].
  rewrite <- app_assoc. reflexivity.
Qed.

Lemma changed_track_published_once_witness :
  main_iter sample_repr meddle_playing steady_echoes with_cover
  = (Ok {| last_track := echoes; prev_listeners := 2 |},
     files_of (download_cover (VStr "http://x/cover.jpg") served_fine with_cover),
     [EvStatsGet; EvCapture; EvRecognize]
     ++ trace_of (download_cover (VStr "http://x/cover.jpg") served_fine with_cover)
     ++ [EvMetadata (metadata_params sample_repr (VStr "Pink Floyd") (VStr "Echoes")
                       (if downloaded (VStr "http://x/cover.jpg") served_fine with_cover
                        then COVER_PUBLIC_URL else ""));
         EvSleep POLL_INTERVAL]).
Proof.
  apply (changed_track_published_once sample_repr meddle_playing steady_echoes
           with_cover 2 (VStr "Echoes") (VStr "Pink Floyd") (VStr "Meddle")
           (VStr "http://x/cover.jpg"));
    try reflexivity; cbn; lia.
Defined.
